(** * Three-phase tasks of isolated-vm: a shallow embedding of
      [src/isolate/three_phase_task.cc]

    The file embeds the runnables of the three-phase protocol
    ([Phase2Runner], [Phase2RunnerIgnored], the three [Phase3*] follow-up
    items) and [ThreePhaseTask::RunSync] as functions over an explicit
    world: a chronological log of the calls made to the collaborators
    (promise resolver, stack-trace holder, executor lock, epilogue hook)
    together with the per-isolate inbox of scheduled runnables. *)

From Stdlib Require Import String List Bool Arith Lia.
Import ListNotations.
Open Scope string_scope.
Open Scope list_scope.

(** ** Data model *)

(** An isolate is named by a number; so are the handles the code only
    passes around (stack traces, promise resolvers, contexts). *)
Definition Isolate := nat.
Definition StackTrace := nat.
Definition Resolver := nat.

Record Context := { context_isolate : Isolate; context_id : nat }.

(** [IsolateEnvironment::DefaultContext]. *)
Definition DefaultContext (iso : Isolate) : Context :=
  {| context_isolate := iso; context_id := 0 |}.

(** A JavaScript object as far as this file looks at it: its message and
    the chain of stack traces its [stack] property renders, oldest first. *)
Record Object := { message : string; stack : list StackTrace }.

(** [Local<Value>]: a primitive, or an object. *)
Inductive Value :=
| Primitive (repr : string)
| Obj (o : Object).

Definition IsObject (v : Value) : bool :=
  match v with
  | Obj _ => true
  | Primitive _ => false
  end.

(** [Exception::Error(v8_string(msg))]: an error object made natively,
    outside any script frame, so its chain starts empty. *)
Definition Exception_Error (msg : string) : Object :=
  {| message := msg; stack := [] |}.

(** The C++ exceptions of the file.  [js_runtime_error] marks a JavaScript
    exception pending in the isolate (the value is carried along);
    [js_generic_error] carries only a message. *)
Inductive js_error :=
| js_runtime_error (pending : Value)
| js_generic_error (msg : string).

(** The value a catching scope finds pending for an exception. *)
Definition Exception_of (e : js_error) : Value :=
  match e with
  | js_runtime_error v => v
  | js_generic_error msg => Obj (Exception_Error msg)
  end.

(** How a call ends. *)
Inductive Completion (A : Type) :=
| Returns (a : A)
| Throws (e : js_error).
Arguments Returns {A} a.
Arguments Throws {A} e.

(** [ThreePhaseTask]: the two virtual methods the file calls.  A task is
    given by how each phase ends: it returns, or it throws a JavaScript
    value. *)
Record ThreePhaseTask := {
  Phase2_outcome : option Value;      (* [None]: returns; [Some v]: throws v *)
  Phase3_outcome : Value + Value      (* [inl r]: returns r; [inr v]: throws v *)
}.

(** [RemoteTuple<Promise::Resolver, Context, StackTrace>] together with the
    isolate the handles belong to. *)
Record RemoteTuple := {
  remote_isolate : Isolate;
  remote_resolver : Resolver;
  remote_context : Context;
  remote_stack_trace : StackTrace
}.

Definition GetIsolateHolder (r : RemoteTuple) : Isolate := remote_isolate r.

(** [ThreePhaseTask::CalleeInfo].  The async tracing token only feeds
    [CallbackScope], which does not touch the resolver; it is kept as a
    plain number. *)
Record CalleeInfo := {
  remotes : RemoteTuple;
  async : nat
}.

(** The calls to collaborators, as they are logged. *)
Inductive Event :=
| EvPhase2
| EvPhase3
| EvTaskEpilogue (iso : Isolate)
| EvIsLocked (iso : Isolate)
| EvLock (iso : Isolate)
| EvUnlock (iso : Isolate)
| EvCopyInto
| EvAttachStack (st : StackTrace)
| EvChainStack (st : StackTrace)
| EvResolve (p : Resolver) (v : Value)
| EvReject (p : Resolver) (v : Value)
| EvThrowException (v : Value)
| EvRunMicrotasks (iso : Isolate).

(** The calling thread, as [RunSync] reads it. *)
Record Thread := {
  GetCurrent : Isolate;               (* [Isolate::GetCurrent()] *)
  IsDefaultThread : bool;             (* [ExecutorLock::IsDefaultThread()] *)
  locked : list Isolate;              (* isolates whose [Locker] it holds *)
  CurrentStackTrace : StackTrace      (* [StackTrace::CurrentStackTrace] *)
}.

(** The message of the deadlock protection, line 214. *)
Definition deadlock_message : string :=
  "Calling a synchronous isolated-vm function from within an asynchronous isolated-vm function is not allowed.".

Definition mem (i : Isolate) (l : list Isolate) : bool :=
  existsb (Nat.eqb i) l.

(** Sample data for the concrete runs.  The sample marshaller copies
    primitives and objects that carry a message as they are; an object
    without a message is not an error and cannot be copied. *)
Definition sample_externalize (v : Value) : option Value :=
  match v with
  | Primitive _ => Some v
  | Obj o => if String.eqb (message o) "" then None else Some v
  end.

Definition sample_CopyInto (e : Value) : Value := e.

Definition sample_info : CalleeInfo :=
  {| remotes := {| remote_isolate := 1; remote_resolver := 5;
                   remote_context := {| context_isolate := 1;
                                        context_id := 4 |};
                   remote_stack_trace := 3 |};
     async := 0 |}.

Definition worker_thread : Thread :=
  {| GetCurrent := 1; IsDefaultThread := false; locked := [1];
     CurrentStackTrace := 9 |}.

Definition default_thread : Thread :=
  {| GetCurrent := 0; IsDefaultThread := true; locked := [0];
     CurrentStackTrace := 9 |}.

Definition task_42 : ThreePhaseTask :=
  {| Phase2_outcome := None; Phase3_outcome := inl (Primitive "42") |}.

Definition task_boom : ThreePhaseTask :=
  {| Phase2_outcome := Some (Obj {| message := "boom"; stack := [7] |});
     Phase3_outcome := inl (Primitive "42") |}.

Definition task_throws_string : ThreePhaseTask :=
  {| Phase2_outcome := Some (Primitive "oops");
     Phase3_outcome := inl (Primitive "42") |}.

Definition task_throws_plain_object : ThreePhaseTask :=
  {| Phase2_outcome := Some (Obj {| message := ""; stack := [] |});
     Phase3_outcome := inl (Primitive "42") |}.

Definition task_phase3_boom : ThreePhaseTask :=
  {| Phase2_outcome := None;
     Phase3_outcome := inr (Obj {| message := "boom"; stack := [7] |}) |}.

Section Bridge.

(** [ExternalCopy] and its two operations come from [external_copy.h];
    the development is parametric in them.  [externalize] is what the
    failure-catching scope hands to its handler: the copied error, or
    nothing when the thrown value cannot be copied. *)
Variable ExternalCopy : Type.
Variable externalize : Value -> option ExternalCopy.
Variable CopyInto : ExternalCopy -> Value.

(** The runnables of the file. [Phase2Runner] keeps its members in
    options: [std::move] leaves a [unique_ptr] empty. *)
Record Phase2Runner := {
  self : option ThreePhaseTask;
  info : option CalleeInfo;
  did_run : bool
}.

Inductive Runnable :=
| R_Phase2Runner (r : Phase2Runner)
| R_Phase2RunnerIgnored (task : ThreePhaseTask)
| R_Phase3Orphan (task : ThreePhaseTask) (i : CalleeInfo)
| R_Phase3Failure (task : ThreePhaseTask) (i : CalleeInfo)
                  (error : option ExternalCopy)
| R_Phase3Success (task : ThreePhaseTask) (i : CalleeInfo).

(** An entry of an isolate's inbox, with the two flags of [ScheduleTask]. *)
Record QueuedTask := {
  q_target : Isolate;
  q_item : Runnable;
  q_urgent : bool;
  q_run_even_if_disposed : bool
}.

Record World := {
  trace : list Event;                 (* oldest first *)
  tasks : list QueuedTask;            (* posting order *)
  disposed : list Isolate
}.

Definition empty_world : World :=
  {| trace := []; tasks := []; disposed := [] |}.

(** ** The monad of the embedding: world passing with C++ exceptions *)

Definition M (A : Type) : Type := World -> Completion A * World.

Definition ret {A} (a : A) : M A := fun w => (Returns a, w).

Definition bind {A B} (c : M A) (k : A -> M B) : M B :=
  fun w =>
    match c w with
    | (Returns a, w') => k a w'
    | (Throws e, w') => (Throws e, w')
    end.

Definition throw {A} (e : js_error) : M A := fun w => (Throws e, w).

Definition try_catch {A} (c : M A) (h : js_error -> M A) : M A :=
  fun w =>
    match c w with
    | (Returns a, w') => (Returns a, w')
    | (Throws e, w') => h e w'
    end.

Definition log (e : Event) : M unit :=
  fun w => (Returns tt,
            {| trace := trace w ++ [e]; tasks := tasks w;
               disposed := disposed w |}).

Notation "x <- c ;; k" := (bind c (fun x => k))
  (at level 61, c at next level, right associativity).
Notation "c ;; k" := (bind c (fun _ => k))
  (at level 61, right associativity).

Definition when (b : bool) (c : M unit) : M unit :=
  if b then c else ret tt.

(** ** Collaborators *)

(** The virtual methods of a task. *)
Definition Phase2 (t : ThreePhaseTask) : M unit :=
  log EvPhase2 ;;
  match Phase2_outcome t with
  | None => ret tt
  | Some v => throw (js_runtime_error v)
  end.

Definition Phase3 (t : ThreePhaseTask) : M Value :=
  log EvPhase3 ;;
  match Phase3_outcome t with
  | inl r => ret r
  | inr v => throw (js_runtime_error v)
  end.

(** Modelled from the spec: the epilogue hook of a context
    ([IsolateEnvironment::TaskEpilogue], declared outside this file); the
    spec only says that it runs. *)
Definition TaskEpilogue (iso : Isolate) : M unit := log (EvTaskEpilogue iso).

Definition RunMicrotasks (iso : Isolate) : M unit := log (EvRunMicrotasks iso).

(** [Promise::Resolver::Resolve] and [Reject] wrapped in [Unmaybe]. *)
Definition Resolve (p : Resolver) (v : Value) : M unit := log (EvResolve p v).
Definition Reject (p : Resolver) (v : Value) : M unit := log (EvReject p v).

(** [ExternalCopy::CopyInto]: materialises in the entered context. *)
Definition do_CopyInto (e : ExternalCopy) : M Value :=
  log EvCopyInto ;; ret (CopyInto e).

(** Modelled from the spec: [StackTraceHolder::AttachStack] and
    [ChainStack] live in another file; section 6 gives them as
    attach (sets) and chain (appends to an existing chain).  They update
    the object behind the handle; the updated object is returned. *)
Definition AttachStack (error : Object) (st : StackTrace) : M Object :=
  log (EvAttachStack st) ;;
  ret {| message := message error; stack := [st] |}.

Definition ChainStack (error : Object) (st : StackTrace) : M Object :=
  log (EvChainStack st) ;;
  ret {| message := message error; stack := stack error ++ [st] |}.

(** Modelled from the spec: the failure-catching scopes of
    [FunctorRunners].  [RunCatchExternal] runs [fn1]; when it throws, the
    pending value is externalized (possibly to nothing) and handed to
    [fn2].  [RunCatchValue] hands the pending value itself to [fn2]. *)
Definition RunCatchExternal {A} (default_context : Context)
    (fn1 : M A) (fn2 : option ExternalCopy -> M A) : M A :=
  try_catch fn1 (fun e => fn2 (externalize (Exception_of e))).

Definition RunCatchValue {A} (fn1 : M A) (fn2 : Value -> M A) : M A :=
  try_catch fn1 (fun e => fn2 (Exception_of e)).

(** Modelled from the spec: [IsolateHolder::ScheduleTask] posts an item to
    the inbox of the holder's isolate with the flags
    urgent and run-even-if-disposed (section 6). *)
Definition ScheduleTask (holder : Isolate) (item : Runnable)
    (urgent run_even_if_disposed : bool) : M unit :=
  fun w => (Returns tt,
            {| trace := trace w;
               tasks := tasks w ++
                 [{| q_target := holder; q_item := item; q_urgent := urgent;
                     q_run_even_if_disposed := run_even_if_disposed |}];
               disposed := disposed w |}).

(** [IsolateHolder::GetIsolate]: the live isolate, or nothing once it is
    disposed. *)
Definition GetIsolate (holder : Isolate) : M (option Isolate) :=
  fun w => (Returns (if mem holder (disposed w) then None else Some holder), w).

(** [Locker::IsLocked]. *)
Definition IsLocked (th : Thread) (iso : Isolate) : M bool :=
  log (EvIsLocked iso) ;; ret (mem iso (locked th)).

(** ** The runnables

    Each [Run] is given the isolate that executes it
    ([Isolate::GetCurrent()] inside the call).  [Context::Scope] and
    [CallbackScope] only enter the caller's context and activate the
    tracing token around the body; they call none of the collaborators
    logged here and are left out. *)

(** [Phase3Orphan::Run], lines 72-84. *)
Definition Phase3Orphan_Run (isolate : Isolate) (i : CalleeInfo) : M unit :=
  let promise_local := remote_resolver (remotes i) in
  let error := Exception_Error "Isolate is disposed" in
  error' <- AttachStack error (remote_stack_trace (remotes i)) ;;
  Reject promise_local (Obj error') ;;
  RunMicrotasks isolate.

(** [Phase3Failure::Run], lines 114-133. *)
Definition Phase3Failure_Run (isolate : Isolate) (i : CalleeInfo)
    (error : option ExternalCopy) : M unit :=
  let promise_local := remote_resolver (remotes i) in
  rejection <-
    match error with
    | Some e => do_CopyInto e
    | None =>
        ret (Obj (Exception_Error
                    "An exception was thrown. Sorry I don't know more."))
    end ;;
  rejection' <-
    match rejection with
    | Obj o =>
        o' <- ChainStack o (remote_stack_trace (remotes i)) ;; ret (Obj o')
    | Primitive _ => ret rejection
    end ;;
  Reject promise_local rejection' ;;
  RunMicrotasks isolate.

(** [Phase3Success::Run], lines 148-165. *)
Definition Phase3Success_Run (isolate : Isolate) (task : ThreePhaseTask)
    (i : CalleeInfo) : M unit :=
  let promise_local := remote_resolver (remotes i) in
  RunCatchValue
    (r <- Phase3 task ;; Resolve promise_local r)
    (fun error =>
       error' <-
         match error with
         | Obj o =>
             o' <- AttachStack o (remote_stack_trace (remotes i)) ;;
             ret (Obj o')
         | Primitive _ => ret error
         end ;;
       Reject promise_local error') ;;
  RunMicrotasks isolate.

(** [Phase2Runner::Run], lines 168-180.  Returns the runner as the call
    leaves it: flag set, members moved out. *)
Definition Phase2Runner_Run (isolate : Isolate) (r : Phase2Runner)
    : M Phase2Runner :=
  let ran := {| self := self r; info := info r; did_run := true |} in
  let moved := {| self := None; info := None; did_run := did_run ran |} in
  match self ran, info ran with
  | Some task, Some i =>
      RunCatchExternal (DefaultContext isolate)
        (Phase2 task ;;
         TaskEpilogue isolate ;;
         let holder := GetIsolateHolder (remotes i) in
         ScheduleTask holder (R_Phase3Success task i) false true ;;
         ret moved)
        (fun error =>
           let holder := GetIsolateHolder (remotes i) in
           ScheduleTask holder (R_Phase3Failure task i error) false true ;;
           ret moved)
  | _, _ => ret ran
  end.

(** [Phase2Runner::~Phase2Runner], lines 58-95. *)
Definition Phase2Runner_destroy (r : Phase2Runner) : M unit :=
  if negb (did_run r) then
    match self r, info r with
    | Some task, Some i =>
        let holder := GetIsolateHolder (remotes i) in
        ScheduleTask holder (R_Phase3Orphan task i) false true
    | _, _ => ret tt
    end
  else ret tt.

(** [Phase2RunnerIgnored::Run], lines 188-194. *)
Definition Phase2RunnerIgnored_Run (isolate : Isolate)
    (task : ThreePhaseTask) : M unit :=
  try_catch
    (Phase2 task ;; TaskEpilogue isolate)
    (fun _ => ret tt).

(** [ExecutorLock]: constructor and destructor of the scoped lock. *)
Definition ExecutorLock_acquire (iso : Isolate) : M unit := log (EvLock iso).
Definition ExecutorLock_release (iso : Isolate) : M unit := log (EvUnlock iso).

(** [ThreePhaseTask::RunSync], lines 199-248. *)
Definition RunSync (th : Thread) (task : ThreePhaseTask)
    (second_isolate : Isolate) : M Value :=
  second_isolate_ref <- GetIsolate second_isolate ;;
  match second_isolate_ref with
  | None => throw (js_generic_error "Isolated is disposed")
  | Some ref =>
      (if Nat.eqb ref (GetCurrent th) then
         Phase2 task
       else
         if negb (IsDefaultThread th) then
           throw (js_generic_error deadlock_message)
         else
           is_recursive <- IsLocked th ref ;;
           ExecutorLock_acquire ref ;;
           error <-
             RunCatchExternal (DefaultContext ref)
               (Phase2 task ;;
                when (negb is_recursive) (TaskEpilogue ref) ;;
                ret None)
               (fun error_inner => ret error_inner) ;;
           ExecutorLock_release ref ;;
           match error with
           | Some e =>
               error_copy <- do_CopyInto e ;;
               error_copy' <-
                 match error_copy with
                 | Obj o =>
                     o' <- ChainStack o (CurrentStackTrace th) ;; ret (Obj o')
                 | Primitive _ => ret error_copy
                 end ;;
               log (EvThrowException error_copy') ;;
               throw (js_runtime_error error_copy')
           | None => ret tt
           end) ;;
      Phase3 task
  end.

(** [Phase2Runner::Phase2Runner], lines 51-56; the flag starts unset. *)
Definition Phase2Runner_new (task : ThreePhaseTask) (i : CalleeInfo)
    : Phase2Runner :=
  {| self := Some task; info := Some i; did_run := false |}.

(** ** The inbox of an isolate *)

(** What running an item does, and the item as the call leaves it. *)
Definition run_item (isolate : Isolate) (item : Runnable) : M Runnable :=
  match item with
  | R_Phase2Runner r =>
      r' <- Phase2Runner_Run isolate r ;; ret (R_Phase2Runner r')
  | R_Phase2RunnerIgnored task =>
      Phase2RunnerIgnored_Run isolate task ;; ret item
  | R_Phase3Orphan _ i => Phase3Orphan_Run isolate i ;; ret item
  | R_Phase3Failure _ i error => Phase3Failure_Run isolate i error ;; ret item
  | R_Phase3Success task i => Phase3Success_Run isolate task i ;; ret item
  end.

(** Destructors; only [Phase2Runner] defines one that acts. *)
Definition destroy_item (item : Runnable) : M unit :=
  match item with
  | R_Phase2Runner r => Phase2Runner_destroy r
  | _ => ret tt
  end.

(** Modelled from the spec: the task queue (section 6).  An item taken
    from the inbox of [iso] is run and then destroyed; when [iso] is gone
    and the item was not posted to run even then, it is destroyed without
    running. *)
Definition deliver (iso : Isolate) (t : QueuedTask) : M unit :=
  fun w =>
    if negb (mem iso (disposed w)) || q_run_even_if_disposed t then
      (r <- run_item iso (q_item t) ;; destroy_item r) w
    else
      destroy_item (q_item t) w.

(** The oldest entry posted to [iso], and the inbox without it. *)
Fixpoint take_first (iso : Isolate) (q : list QueuedTask)
    : option (QueuedTask * list QueuedTask) :=
  match q with
  | [] => None
  | t :: q' =>
      if Nat.eqb (q_target t) iso then Some (t, q')
      else
        match take_first iso q' with
        | Some (x, rest) => Some (x, t :: rest)
        | None => None
        end
  end.

(** What the host may do next: let an isolate take its oldest entry, or
    dispose of an isolate. *)
Inductive Choice :=
| Deliver (iso : Isolate)
| Dispose (iso : Isolate).

Definition step (c : Choice) (w : World) : option World :=
  match c with
  | Deliver iso =>
      match take_first iso (tasks w) with
      | Some (t, rest) =>
          Some (snd (deliver iso t
                       {| trace := trace w; tasks := rest;
                          disposed := disposed w |}))
      | None => None
      end
  | Dispose iso =>
      if mem iso (disposed w) then None
      else Some {| trace := trace w; tasks := tasks w;
                   disposed := iso :: disposed w |}
  end.

Fixpoint exec (cs : list Choice) (w : World) : option World :=
  match cs with
  | [] => Some w
  | c :: cs' =>
      match step c w with
      | Some w' => exec cs' w'
      | None => None
      end
  end.

(** Serving the inboxes in posting order. *)
Fixpoint drain (fuel : nat) (w : World) : list Choice :=
  match fuel with
  | 0 => []
  | S n =>
      match tasks w with
      | [] => []
      | t :: _ =>
          let c := Deliver (q_target t) in
          match step c w with
          | Some w' => c :: drain n w'
          | None => []
          end
      end
  end.

(** Modelled from the spec: an invocation (section 4.2 and 4.3); the
    template that posts the first item is in the header.  The
    asynchronous one hands task and callee info to the target as a single
    queued item, dropped if the target goes first; the fire-and-ignore one
    owns only the task. *)
Inductive Invocation :=
| Async (task : ThreePhaseTask) (i : CalleeInfo) (target : Isolate)
| Ignored (task : ThreePhaseTask) (target : Isolate).

Definition invoke (inv : Invocation) : M unit :=
  match inv with
  | Async task i target =>
      ScheduleTask target (R_Phase2Runner (Phase2Runner_new task i))
                   false false
  | Ignored task target =>
      ScheduleTask target (R_Phase2RunnerIgnored task) false false
  end.

Fixpoint invoke_all (invs : list Invocation) (w : World) : World :=
  match invs with
  | [] => w
  | inv :: invs' => invoke_all invs' (snd (invoke inv w))
  end.

Fixpoint resolvers (invs : list Invocation) : list Resolver :=
  match invs with
  | [] => []
  | Async _ i _ :: invs' => remote_resolver (remotes i) :: resolvers invs'
  | Ignored _ _ :: invs' => resolvers invs'
  end.

(** ** Reading the log *)

(** Settlements of the future behind resolver [p]. *)
Definition settles (p : Resolver) (e : Event) : bool :=
  match e with
  | EvResolve q _ | EvReject q _ => Nat.eqb q p
  | _ => false
  end.

Definition settled_in (p : Resolver) (evs : list Event) : nat :=
  length (filter (settles p) evs).

Definition settled (p : Resolver) (w : World) : nat :=
  settled_in p (trace w).

(** The futures an item still in an inbox stands for. *)
Definition owes (p : Resolver) (item : Runnable) : nat :=
  match item with
  | R_Phase2Runner r =>
      match info r with
      | Some i => if Nat.eqb (remote_resolver (remotes i)) p then 1 else 0
      | None => 0
      end
  | R_Phase2RunnerIgnored _ => 0
  | R_Phase3Orphan _ i | R_Phase3Failure _ i _ | R_Phase3Success _ i =>
      if Nat.eqb (remote_resolver (remotes i)) p then 1 else 0
  end.

Fixpoint owed_in (p : Resolver) (q : list QueuedTask) : nat :=
  match q with
  | [] => 0
  | t :: q' => owes p (q_item t) + owed_in p q'
  end.

Definition pending (p : Resolver) (w : World) : nat := owed_in p (tasks w).

(** The two kinds of item a runner may leave behind. *)
Definition is_follow_up (item : Runnable) : bool :=
  match item with
  | R_Phase3Success _ _ | R_Phase3Failure _ _ _ => true
  | _ => false
  end.

Definition is_orphan (item : Runnable) : bool :=
  match item with
  | R_Phase3Orphan _ _ => true
  | _ => false
  end.

(** Items as the code makes them: a runner in an inbox has not run and
    still owns task and callee info; a follow-up item is posted to run
    even when the isolate is gone. *)
Definition wf_task (t : QueuedTask) : bool :=
  match q_item t with
  | R_Phase2Runner r =>
      match self r, info r with
      | Some _, Some _ => negb (did_run r)
      | _, _ => false
      end
  | R_Phase2RunnerIgnored _ => true
  | R_Phase3Orphan _ _ | R_Phase3Failure _ _ _ | R_Phase3Success _ _ =>
      q_run_even_if_disposed t
  end.

(** Steps an entry is away from leaving nothing behind. *)
Definition rank (t : QueuedTask) : nat :=
  match q_item t with
  | R_Phase2Runner _ => 2
  | _ => 1
  end.

Fixpoint rank_in (q : list QueuedTask) : nat :=
  match q with
  | [] => 0
  | t :: q' => rank t + rank_in q'
  end.

(** The world grown by logged events and posted entries. *)
Definition extend (w : World) (evs : list Event) (new : list QueuedTask)
    : World :=
  {| trace := trace w ++ evs; tasks := tasks w ++ new;
     disposed := disposed w |}.

(** The value with an invocation stack appended to its chain, and with
    its chain set to that stack. *)
Definition chained (v : Value) (st : StackTrace) : Value :=
  match v with
  | Obj o => Obj {| message := message o; stack := stack o ++ [st] |}
  | Primitive _ => v
  end.

Definition attached (v : Value) (st : StackTrace) : Value :=
  match v with
  | Obj o => Obj {| message := message o; stack := [st] |}
  | Primitive _ => v
  end.

Definition stack_of (v : Value) : list StackTrace :=
  match v with
  | Obj o => stack o
  | Primitive _ => []
  end.

(** What the lock-taking path of [RunSync] logs up to the release of the
    lock: the epilogue hook appears when Phase2 returned and the lock was
    not already held. *)
Definition epilogue_events (th : Thread) (task : ThreePhaseTask)
    (target : Isolate) : list Event :=
  match Phase2_outcome task with
  | None => if mem target (locked th) then [] else [EvTaskEpilogue target]
  | Some _ => []
  end.

Definition under_lock (th : Thread) (task : ThreePhaseTask)
    (target : Isolate) : list Event :=
  [EvIsLocked target; EvLock target; EvPhase2]
  ++ epilogue_events th task target ++ [EvUnlock target].

(** Every inbox entry is as the code makes it. *)
Definition wf (w : World) : Prop := forallb wf_task (tasks w) = true.

(** *** Further readings of the log *)

(** The lock discipline of a stretch of the log, read from left to right
    with the isolate whose lock is held, if any: a lock is taken only
    when none is held and released by the isolate that took it; the
    epilogue hook runs only under the lock of its own isolate; the
    reentrancy query, the materialising of an error, the chaining of a
    stack, the rethrow and Phase3 happen only with no lock held; at the
    end no lock is held. *)
Fixpoint lock_discipline (held : option Isolate) (evs : list Event) : bool :=
  match evs with
  | [] => match held with None => true | Some _ => false end
  | e :: evs' =>
      match e, held with
      | EvLock iso, None => lock_discipline (Some iso) evs'
      | EvLock _, Some _ => false
      | EvUnlock iso, Some iso' =>
          Nat.eqb iso iso' && lock_discipline None evs'
      | EvUnlock _, None => false
      | EvTaskEpilogue iso, Some iso' =>
          Nat.eqb iso iso' && lock_discipline held evs'
      | EvTaskEpilogue _, None => false
      | (EvPhase3 | EvCopyInto | EvChainStack _ | EvThrowException _
         | EvIsLocked _), Some _ => false
      | _, _ => lock_discipline held evs'
      end
  end.

Definition is_Phase2 (e : Event) : bool :=
  match e with EvPhase2 => true | _ => false end.

Definition is_Phase3 (e : Event) : bool :=
  match e with EvPhase3 => true | _ => false end.

Definition count_in (f : Event -> bool) (evs : list Event) : nat :=
  length (filter f evs).

(** How often Phase2 and Phase3 have run. *)
Definition phase2_runs (w : World) : nat := count_in is_Phase2 (trace w).
Definition phase3_runs (w : World) : nat := count_in is_Phase3 (trace w).

(** Entries that have yet to run Phase2, and entries that have yet to run
    Phase3. *)
Definition awaits_Phase2 (t : QueuedTask) : nat :=
  match q_item t with
  | R_Phase2Runner _ | R_Phase2RunnerIgnored _ => 1
  | _ => 0
  end.

Definition awaits_Phase3 (t : QueuedTask) : nat :=
  match q_item t with
  | R_Phase3Success _ _ => 1
  | _ => 0
  end.

Fixpoint sum_over (f : QueuedTask -> nat) (q : list QueuedTask) : nat :=
  match q with
  | [] => 0
  | t :: q' => f t + sum_over f q'
  end.

(** A world with nothing logged and nothing queued. *)
Definition blank (d : list Isolate) : World :=
  {| trace := []; tasks := []; disposed := d |}.

(** ** Properties *)

Ltac unfold_bridge :=
  unfold Phase2Runner_destroy, Phase2Runner_Run, Phase2RunnerIgnored_Run,
    Phase3Orphan_Run, Phase3Failure_Run, Phase3Success_Run, RunSync,
    RunCatchExternal, RunCatchValue, ExecutorLock_acquire,
    ExecutorLock_release, IsLocked, GetIsolate, ScheduleTask, AttachStack,
    ChainStack, do_CopyInto, Resolve, Reject, RunMicrotasks, TaskEpilogue,
    Phase3, Phase2, when, try_catch, bind, ret, throw, log, extend,
    Phase2Runner_new, GetIsolateHolder, Exception_of.

Ltac same_world :=
  cbn; rewrite <- ?app_assoc, ?app_nil_r; cbn; try reflexivity.

Lemma settled_in_app : forall p a b,
  settled_in p (a ++ b) = settled_in p a + settled_in p b.
Proof.
  intros p a b. unfold settled_in. now rewrite filter_app, length_app.
Qed.

Lemma owed_in_app : forall p a b,
  owed_in p (a ++ b) = owed_in p a + owed_in p b.
Proof.
  intros p a b. induction a as [|t a IH]; cbn; [reflexivity|].
  rewrite IH. lia.
Qed.

Lemma rank_in_app : forall a b, rank_in (a ++ b) = rank_in a + rank_in b.
Proof.
  intros a b. induction a as [|t a IH]; cbn; [reflexivity|].
  rewrite IH. lia.
Qed.

(** C9: the fire-and-ignore item runs Phase2 as soon as it is taken from
    the inbox, runs the epilogue hook of its isolate exactly when Phase2
    returned, and swallows a Phase2 failure: the call returns, nothing is
    posted and no future is settled. *)
Theorem Phase2RunnerIgnored_swallows :
  forall isolate task w,
    Phase2RunnerIgnored_Run isolate task w =
      (Returns tt,
       extend w (EvPhase2 ::
                 match Phase2_outcome task with
                 | None => [EvTaskEpilogue isolate]
                 | Some _ => []
                 end) [])
    /\ fst (run_item isolate (R_Phase2RunnerIgnored task) w) =
         Returns (R_Phase2RunnerIgnored task)
    /\ snd (run_item isolate (R_Phase2RunnerIgnored task) w) =
         snd (Phase2RunnerIgnored_Run isolate task w)
    /\ tasks (snd (Phase2RunnerIgnored_Run isolate task w)) = tasks w
    /\ forall p,
         settled p (snd (Phase2RunnerIgnored_Run isolate task w)) =
         settled p w.
Proof.
  intros isolate task [tr q d].
  assert (E : Phase2RunnerIgnored_Run isolate task
                {| trace := tr; tasks := q; disposed := d |} =
              (Returns tt,
               extend {| trace := tr; tasks := q; disposed := d |}
                 (EvPhase2 ::
                  match Phase2_outcome task with
                  | None => [EvTaskEpilogue isolate]
                  | Some _ => []
                  end) [])).
  { unfold_bridge. destruct (Phase2_outcome task); same_world. }
  split; [exact E|].
  unfold run_item, bind. rewrite E. cbn [fst snd].
  repeat split.
  - cbn. now rewrite app_nil_r.
  - intro p. unfold settled, extend. cbn [trace]. rewrite settled_in_app.
    destruct (Phase2_outcome task); cbn; lia.
Qed.

(** C2: a queued runner dropped without running (its isolate is gone)
    posts a fallback item with the same callee info to the isolate that
    owns the resolver; that item, when the caller's isolate takes it,
    rejects the future with the disposed error carrying the stack
    captured at the invocation, then runs the caller's microtasks. *)
Theorem orphan_fallback_rejects_disposed :
  forall task i target urgent w,
    mem target (disposed w) = true ->
    let runner :=
      {| q_target := target;
         q_item := R_Phase2Runner (Phase2Runner_new task i);
         q_urgent := urgent; q_run_even_if_disposed := false |} in
    let caller := GetIsolateHolder (remotes i) in
    let fallback :=
      {| q_target := caller; q_item := R_Phase3Orphan task i;
         q_urgent := false; q_run_even_if_disposed := true |} in
    deliver target runner w = (Returns tt, extend w [] [fallback])
    /\ forall w',
         deliver caller fallback w' =
           (Returns tt,
            extend w'
              [EvAttachStack (remote_stack_trace (remotes i));
               EvReject (remote_resolver (remotes i))
                 (Obj {| message := "Isolate is disposed";
                         stack := [remote_stack_trace (remotes i)] |});
               EvRunMicrotasks caller] []).
Proof.
  intros task i target urgent [tr q d] Hgone runner caller fallback.
  cbn in Hgone. split.
  - unfold deliver, runner. cbn. rewrite Hgone. cbn.
    unfold_bridge. same_world.
  - intros [tr' q' d']. unfold deliver, fallback. cbn.
    rewrite orb_true_r. unfold_bridge. same_world.
Qed.

(** C4: when Phase2 throws in a runner, no epilogue runs and one item is
    posted to the caller's isolate carrying the externalized error; that
    item materialises the error, chains the invocation stack when it is an
    object, and rejects the future with it.  When nothing could be
    externalized, the rejection is the placeholder error instead. *)
Theorem async_failure_rejects :
  forall isolate v r3 i w,
    let task := {| Phase2_outcome := Some v; Phase3_outcome := r3 |} in
    let p := remote_resolver (remotes i) in
    let st := remote_stack_trace (remotes i) in
    let caller := GetIsolateHolder (remotes i) in
    (r <- Phase2Runner_Run isolate (Phase2Runner_new task i) ;;
     Phase2Runner_destroy r) w =
      (Returns tt,
       extend w [EvPhase2]
         [{| q_target := caller;
             q_item := R_Phase3Failure task i (externalize v);
             q_urgent := false; q_run_even_if_disposed := true |}])
    /\ forall w',
         Phase3Failure_Run caller i (externalize v) w' =
           (Returns tt,
            extend w'
              match externalize v with
              | Some e =>
                  EvCopyInto ::
                  (if IsObject (CopyInto e) then [EvChainStack st] else [])
                  ++ [EvReject p (chained (CopyInto e) st);
                      EvRunMicrotasks caller]
              | None =>
                  [EvChainStack st;
                   EvReject p
                     (Obj {| message :=
                               "An exception was thrown. Sorry I don't know more.";
                             stack := [st] |});
                   EvRunMicrotasks caller]
              end []).
Proof.
  intros isolate v r3 i [tr q d] task p st caller. split.
  - unfold_bridge. same_world.
  - intros [tr' q' d']. unfold_bridge. cbn.
    destruct (externalize v) as [e|]; cbn.
    + destruct (CopyInto e) as [s|o]; same_world.
    + same_world.
Qed.

Lemma Phase3_run : forall task w,
  Phase3 task w =
    (match Phase3_outcome task with
     | inl r => Returns r
     | inr v => Throws (js_runtime_error v)
     end, extend w [EvPhase3] []).
Proof.
  intros task [tr q d]. unfold_bridge. cbn.
  destruct (Phase3_outcome task); same_world.
Qed.

Lemma RunSync_locked_path :
  forall th task target w,
    mem target (disposed w) = false ->
    Nat.eqb target (GetCurrent th) = false ->
    IsDefaultThread th = true ->
    RunSync th task target w =
      let w1 := extend w (under_lock th task target) [] in
      match Phase2_outcome task with
      | None => Phase3 task w1
      | Some v =>
          match externalize v with
          | None => Phase3 task w1
          | Some e =>
              let thrown := chained (CopyInto e) (CurrentStackTrace th) in
              (Throws (js_runtime_error thrown),
               extend w1
                 (EvCopyInto ::
                  (if IsObject (CopyInto e)
                   then [EvChainStack (CurrentStackTrace th)] else [])
                  ++ [EvThrowException thrown]) [])
          end
      end.
Proof.
  intros th task target [tr q d] Halive Hother Hdefault.
  cbn in Halive. cbv zeta. rewrite !Phase3_run.
  unfold RunSync, GetIsolate, bind at 1. cbn.
  rewrite Halive, Hother, Hdefault. cbn.
  unfold under_lock, epilogue_events. unfold_bridge. cbn.
  destruct (Phase2_outcome task) as [v|]; cbn.
  - destruct (externalize v) as [e|]; cbn.
    + destruct (CopyInto e) as [s|o]; same_world.
    + destruct (Phase3_outcome task); same_world.
  - destruct (mem target (locked th)); cbn;
      destruct (Phase3_outcome task); same_world.
Qed.

(** C8: on the lock-taking path of the synchronous mode, [Locker::IsLocked]
    is asked before the lock is taken, and between Phase2 and the release
    the epilogue hook of the target runs exactly when Phase2 returned and
    the lock was not already held; it runs nowhere else in the call. *)
Theorem RunSync_epilogue_iff_not_reentrant :
  forall th task target w,
    mem target (disposed w) = false ->
    Nat.eqb target (GetCurrent th) = false ->
    IsDefaultThread th = true ->
    exists epi rest,
      trace (snd (RunSync th task target w)) =
        trace w ++ [EvIsLocked target; EvLock target; EvPhase2] ++ epi
                ++ EvUnlock target :: rest
      /\ (epi = [EvTaskEpilogue target] \/ epi = [])
      /\ (epi = [EvTaskEpilogue target] <->
           Phase2_outcome task = None /\ mem target (locked th) = false)
      /\ forall iso, ~ In (EvTaskEpilogue iso) rest.
Proof.
  intros th task target w Halive Hother Hdefault.
  rewrite (RunSync_locked_path th task target w Halive Hother Hdefault).
  exists (epilogue_events th task target).
  assert (Hepi :
    (epilogue_events th task target = [EvTaskEpilogue target] \/
     epilogue_events th task target = []) /\
    (epilogue_events th task target = [EvTaskEpilogue target] <->
     Phase2_outcome task = None /\ mem target (locked th) = false)).
  { unfold epilogue_events.
    destruct (Phase2_outcome task) as [v|];
      [|destruct (mem target (locked th))];
      (split; [auto|split; [discriminate || auto | intros [? ?]; congruence]]). }
  destruct Hepi as [Hshape Hiff].
  cbv zeta. rewrite !Phase3_run.
  destruct (Phase2_outcome task) as [v|] eqn:E2.
  - destruct (externalize v) as [e|].
    + exists (EvCopyInto ::
               (if IsObject (CopyInto e)
                then [EvChainStack (CurrentStackTrace th)] else [])
               ++ [EvThrowException
                     (chained (CopyInto e) (CurrentStackTrace th))]).
      split; [|split; [exact Hshape|split; [exact Hiff|]]].
      * unfold extend, under_lock. cbn [snd trace].
        now rewrite <- !app_assoc.
      * intros iso [H|H]; [discriminate|].
        destruct (IsObject (CopyInto e)); cbn in H;
          repeat (destruct H as [H|H]; [discriminate|]); exact H.
    + exists [EvPhase3].
      split; [|split; [exact Hshape|split; [exact Hiff|]]].
      * unfold extend, under_lock. cbn [snd trace].
        now rewrite <- !app_assoc.
      * intros iso [H|H]; [discriminate|exact H].
  - exists [EvPhase3].
    split; [|split; [exact Hshape|split; [exact Hiff|]]].
    + unfold extend, under_lock. cbn [snd trace].
      now rewrite <- !app_assoc.
    + intros iso [H|H]; [discriminate|exact H].
Qed.

(** C5, amended: on a target that is still alive, a synchronous call from
    a thread that is not inside the target and is not the default thread
    fails with the deadlock error and leaves the world as it was: no lock
    is taken, and [Locker::IsLocked] is not even asked. *)
Theorem RunSync_deadlock_before_lock :
  forall th task target w,
    mem target (disposed w) = false ->
    Nat.eqb target (GetCurrent th) = false ->
    IsDefaultThread th = false ->
    RunSync th task target w =
      (Throws (js_generic_error deadlock_message), w).
Proof.
  intros th task target [tr q d] Halive Hother Hworker.
  cbn in Halive. unfold RunSync, GetIsolate, bind. cbn.
  now rewrite Halive, Hother, Hworker.
Qed.

(** The disposed target is refused first, whatever the thread. *)
Lemma RunSync_disposed :
  forall th task target w,
    mem target (disposed w) = true ->
    RunSync th task target w =
      (Throws (js_generic_error "Isolated is disposed"), w).
Proof.
  intros th task target [tr q d] Hgone.
  cbn in Hgone. unfold RunSync, GetIsolate, bind. cbn.
  now rewrite Hgone.
Qed.

(** The same-isolate shortcut: Phase2 inline, then Phase3, no lock. *)
Lemma RunSync_shortcut :
  forall th task target w,
    mem target (disposed w) = false ->
    Nat.eqb target (GetCurrent th) = true ->
    RunSync th task target w =
      match Phase2_outcome task with
      | None => Phase3 task (extend w [EvPhase2] [])
      | Some v => (Throws (js_runtime_error v), extend w [EvPhase2] [])
      end.
Proof.
  intros th task target [tr q d] Halive Hsame.
  cbn in Halive. rewrite Phase3_run.
  unfold RunSync, GetIsolate, bind at 1. cbn.
  rewrite Halive, Hsame. unfold_bridge. cbn.
  destruct (Phase2_outcome task) as [v|]; cbn.
  - same_world.
  - destruct (Phase3_outcome task); same_world.
Qed.

(** The synchronous mode has no future: whatever the thread, the task and
    the target, [RunSync] posts nothing and settles no resolver. *)
Lemma RunSync_never_settles :
  forall th task target w p,
    settled p (snd (RunSync th task target w)) = settled p w
    /\ tasks (snd (RunSync th task target w)) = tasks w.
Proof.
  intros th task target w p.
  destruct (mem target (disposed w)) eqn:Hgone.
  { rewrite (RunSync_disposed th task target w Hgone). auto. }
  destruct (Nat.eqb target (GetCurrent th)) eqn:Hsame.
  { rewrite (RunSync_shortcut th task target w Hgone Hsame).
    rewrite Phase3_run.
    destruct w as [tr q d]. unfold settled, extend.
    destruct (Phase2_outcome task); cbn [snd trace tasks];
      rewrite <- ?app_assoc, ?settled_in_app, ?app_nil_r; cbn; split; auto. }
  destruct (IsDefaultThread th) eqn:Hdefault.
  2: { rewrite (RunSync_deadlock_before_lock th task target w
                  Hgone Hsame Hdefault). auto. }
  rewrite (RunSync_locked_path th task target w Hgone Hsame Hdefault).
  cbv zeta. rewrite !Phase3_run.
  destruct w as [tr q d].
  unfold settled, extend, under_lock, epilogue_events.
  destruct (Phase2_outcome task) as [v|];
    [destruct (externalize v) as [e|];
       [destruct (IsObject (CopyInto e))|]
    |destruct (mem target (locked th))];
    cbn [snd trace tasks];
    rewrite <- ?app_assoc, ?settled_in_app, ?app_nil_r; cbn; split; auto.
Qed.

(** C7, amended: where the stack goes on each failure path.  The
    asynchronous Phase2 failure path, when the carried error materialises
    to an object, and the lock-taking path of the synchronous mode (live
    target other than the current isolate, default thread), when the
    thrown value was externalized and materialises to an object, append
    the invocation stack after the chain the error already has; the
    orphan path attaches it to the error it has just made; the
    asynchronous Phase3-throw path attaches it too, which sets the chain
    of the thrown object to the invocation stack alone. *)
Theorem stack_chained_or_attached :
  (forall isolate i w,
     Phase3Orphan_Run isolate i w =
       (Returns tt,
        extend w
          [EvAttachStack (remote_stack_trace (remotes i));
           EvReject (remote_resolver (remotes i))
             (chained (Obj (Exception_Error "Isolate is disposed"))
                      (remote_stack_trace (remotes i)));
           EvRunMicrotasks isolate] []))
  /\ (forall isolate i e o w,
        CopyInto e = Obj o ->
        Phase3Failure_Run isolate i (Some e) w =
          (Returns tt,
           extend w
             [EvCopyInto; EvChainStack (remote_stack_trace (remotes i));
              EvReject (remote_resolver (remotes i))
                (Obj {| message := message o;
                        stack := stack o
                                 ++ [remote_stack_trace (remotes i)] |});
              EvRunMicrotasks isolate] []))
  /\ (forall th v r3 target e o w,
        mem target (disposed w) = false ->
        Nat.eqb target (GetCurrent th) = false ->
        IsDefaultThread th = true ->
        externalize v = Some e ->
        CopyInto e = Obj o ->
        let task := {| Phase2_outcome := Some v; Phase3_outcome := r3 |} in
        let thrown :=
          Obj {| message := message o;
                 stack := stack o ++ [CurrentStackTrace th] |} in
        RunSync th task target w =
          (Throws (js_runtime_error thrown),
           extend w
             ([EvIsLocked target; EvLock target; EvPhase2; EvUnlock target;
               EvCopyInto; EvChainStack (CurrentStackTrace th);
               EvThrowException thrown]) []))
  /\ (forall isolate r2 o i w,
        let task := {| Phase2_outcome := r2;
                       Phase3_outcome := inr (Obj o) |} in
        Phase3Success_Run isolate task i w =
          (Returns tt,
           extend w
             [EvPhase3; EvAttachStack (remote_stack_trace (remotes i));
              EvReject (remote_resolver (remotes i))
                (Obj {| message := message o;
                        stack := [remote_stack_trace (remotes i)] |});
              EvRunMicrotasks isolate] [])).
Proof.
  repeat split.
  - intros isolate i [tr q d]. unfold_bridge. same_world.
  - intros isolate i e o [tr q d] Hobj. unfold_bridge. cbn.
    rewrite Hobj. same_world.
  - intros th v r3 target e o w Halive Hother Hdefault Hext Hobj task thrown.
    rewrite (RunSync_locked_path th task target w Halive Hother Hdefault).
    cbn. rewrite Hext, Hobj. destruct w as [tr q d].
    unfold extend, under_lock, epilogue_events, thrown. same_world.
  - intros isolate r2 o i [tr q d] task. unfold_bridge. same_world.
Qed.

(** C10: a failure whose value is not an object reaches the caller as it
    is.  No stack is attached or chained, and the future is rejected with
    the materialised value (Phase2 failure), with the thrown value (Phase3
    throw), or the value is thrown (synchronous mode). *)
Theorem non_object_failure_delivered_raw :
  (forall isolate i e s w,
     CopyInto e = Primitive s ->
     Phase3Failure_Run isolate i (Some e) w =
       (Returns tt,
        extend w
          [EvCopyInto; EvReject (remote_resolver (remotes i)) (Primitive s);
           EvRunMicrotasks isolate] []))
  /\ (forall isolate r2 s i w,
        let task := {| Phase2_outcome := r2;
                       Phase3_outcome := inr (Primitive s) |} in
        Phase3Success_Run isolate task i w =
          (Returns tt,
           extend w
             [EvPhase3; EvReject (remote_resolver (remotes i)) (Primitive s);
              EvRunMicrotasks isolate] []))
  /\ (forall th v r3 target e s w,
        mem target (disposed w) = false ->
        Nat.eqb target (GetCurrent th) = false ->
        IsDefaultThread th = true ->
        externalize v = Some e ->
        CopyInto e = Primitive s ->
        let task := {| Phase2_outcome := Some v; Phase3_outcome := r3 |} in
        RunSync th task target w =
          (Throws (js_runtime_error (Primitive s)),
           extend w
             [EvIsLocked target; EvLock target; EvPhase2; EvUnlock target;
              EvCopyInto; EvThrowException (Primitive s)] [])).
Proof.
  repeat split.
  - intros isolate i e s [tr q d] Hprim. unfold_bridge. cbn.
    rewrite Hprim. same_world.
  - intros isolate r2 s i [tr q d] task. unfold_bridge. same_world.
  - intros th v r3 target e s w Halive Hother Hdefault Hext Hprim task.
    rewrite (RunSync_locked_path th task target w Halive Hother Hdefault).
    cbn. rewrite Hext, Hprim. destruct w as [tr q d].
    unfold extend, under_lock, epilogue_events. same_world.
Qed.

(** *** Settlement: the counting invariant of the inboxes *)

Ltac count_case p :=
  cbn;
  repeat match goal with
         | |- context [Nat.eqb ?a p] => destruct (Nat.eqb a p); cbn
         end;
  try reflexivity; try lia.

(** Delivering an entry logs events and posts entries; what it settles
    plus what its new entries still owe is what the entry owed, and the
    new entries are nearer to leaving nothing behind. *)
Lemma deliver_effect :
  forall iso t w,
    wf_task t = true ->
    exists evs new,
      deliver iso t w = (Returns tt, extend w evs new)
      /\ forallb wf_task new = true
      /\ (forall p, settled_in p evs + owed_in p new = owes p (q_item t))
      /\ rank_in new < rank t.
Proof.
  intros iso [tgt item u flag] [tr q d] Hwf.
  unfold wf_task in Hwf. cbn [q_item q_run_even_if_disposed] in Hwf.
  unfold deliver, rank. cbn [q_item q_run_even_if_disposed disposed].
  destruct item as [[[task|] [i|] ran] | task | task i | task i error
                    | task i]; try discriminate Hwf.
  - (* a runner that has not run *)
    destruct ran; [discriminate Hwf|].
    destruct (negb (mem iso d) || flag).
    + destruct (Phase2_outcome task) as [v|] eqn:E2.
      * exists [EvPhase2],
          [{| q_target := GetIsolateHolder (remotes i);
              q_item := R_Phase3Failure task i (externalize v);
              q_urgent := false; q_run_even_if_disposed := true |}].
        repeat split; [|intro p; count_case p|cbn; lia].
        unfold run_item, destroy_item. unfold_bridge. cbn.
        rewrite E2. same_world.
      * exists [EvPhase2; EvTaskEpilogue iso],
          [{| q_target := GetIsolateHolder (remotes i);
              q_item := R_Phase3Success task i;
              q_urgent := false; q_run_even_if_disposed := true |}].
        repeat split; [|intro p; count_case p|cbn; lia].
        unfold run_item, destroy_item. unfold_bridge. cbn.
        rewrite E2. same_world.
    + exists [],
        [{| q_target := GetIsolateHolder (remotes i);
            q_item := R_Phase3Orphan task i;
            q_urgent := false; q_run_even_if_disposed := true |}].
      repeat split; [|intro p; count_case p|cbn; lia].
      unfold destroy_item. unfold_bridge. same_world.
  - (* fire-and-ignore *)
    destruct (negb (mem iso d) || flag).
    + exists (EvPhase2 ::
              match Phase2_outcome task with
              | None => [EvTaskEpilogue iso]
              | Some _ => []
              end), [].
      repeat split;
        [|intro p; destruct (Phase2_outcome task); count_case p|cbn; lia].
      unfold run_item, destroy_item. unfold_bridge. cbn.
      destruct (Phase2_outcome task); same_world.
    + exists [], []. repeat split; [|cbn; lia].
      unfold destroy_item. unfold_bridge. same_world.
  - (* orphan fallback *)
    rewrite Hwf, orb_true_r.
    exists [EvAttachStack (remote_stack_trace (remotes i));
            EvReject (remote_resolver (remotes i))
              (chained (Obj (Exception_Error "Isolate is disposed"))
                       (remote_stack_trace (remotes i)));
            EvRunMicrotasks iso], [].
    repeat split; [|intro p; count_case p|cbn; lia].
    unfold run_item, destroy_item. unfold_bridge. same_world.
  - (* Phase2 failed *)
    rewrite Hwf, orb_true_r.
    set (rejection :=
           match error with
           | Some e => CopyInto e
           | None =>
               Obj (Exception_Error
                      "An exception was thrown. Sorry I don't know more.")
           end).
    exists ((match error with Some _ => [EvCopyInto] | None => [] end)
            ++ (if IsObject rejection
                then [EvChainStack (remote_stack_trace (remotes i))]
                else [])
            ++ [EvReject (remote_resolver (remotes i))
                  (chained rejection (remote_stack_trace (remotes i)));
                EvRunMicrotasks iso]), [].
    repeat split;
      [|intro p; unfold settled_in; rewrite !filter_app, !length_app;
        destruct error; destruct (IsObject rejection); count_case p
       |cbn; lia].
    unfold run_item, destroy_item. unfold_bridge. cbn. subst rejection.
    destruct error as [e|]; cbn; [destruct (CopyInto e)|]; same_world.
  - (* Phase2 returned *)
    rewrite Hwf, orb_true_r.
    exists (EvPhase3 ::
            match Phase3_outcome task with
            | inl r => [EvResolve (remote_resolver (remotes i)) r]
            | inr v =>
                (if IsObject v
                 then [EvAttachStack (remote_stack_trace (remotes i))]
                 else [])
                ++ [EvReject (remote_resolver (remotes i))
                      (attached v (remote_stack_trace (remotes i)))]
            end ++ [EvRunMicrotasks iso]), [].
    repeat split;
      [|intro p; destruct (Phase3_outcome task) as [r|[s|o]]; count_case p
       |cbn; lia].
    unfold run_item, destroy_item. unfold_bridge. cbn.
    destruct (Phase3_outcome task) as [r|[s|o]]; same_world.
Qed.

Lemma take_first_spec :
  forall iso q t rest,
    take_first iso q = Some (t, rest) ->
    (forall p, owed_in p q = owes p (q_item t) + owed_in p rest)
    /\ rank_in q = rank t + rank_in rest
    /\ (forallb wf_task q = true ->
         wf_task t = true /\ forallb wf_task rest = true).
Proof.
  intros iso q. induction q as [|x q IH]; intros t rest Htake;
    cbn in Htake.
  - discriminate Htake.
  - destruct (Nat.eqb (q_target x) iso).
    + injection Htake as <- <-. cbn. repeat split; auto.
      all: apply andb_prop in H; tauto.
    + destruct (take_first iso q) as [[y rest']|]; [|discriminate Htake].
      injection Htake as <- <-.
      destruct (IH y rest' eq_refl) as (Howed & Hrank & Hwf).
      cbn. split; [|split].
      * intro p. rewrite Howed. lia.
      * rewrite Hrank. lia.
      * intro Hall. apply andb_prop in Hall. destruct Hall as [Hx Hq].
        destruct (Hwf Hq) as [Hy Hrest]. split; [exact Hy|].
        now rewrite Hx, Hrest.
Qed.

Lemma take_first_head :
  forall t q, take_first (q_target t) (t :: q) = Some (t, q).
Proof.
  intros t q. cbn. now rewrite Nat.eqb_refl.
Qed.

(** One step of the host keeps, for every resolver, the sum of what is
    settled and what is still owed. *)
Lemma step_invariant :
  forall c w w',
    wf w ->
    step c w = Some w' ->
    wf w'
    /\ (forall p, pending p w' + settled p w' = pending p w + settled p w)
    /\ rank_in (tasks w') <= rank_in (tasks w).
Proof.
  intros [iso|iso] [tr q d] w' Hwf Hstep; unfold wf in *;
    unfold step in Hstep; cbn [tasks trace disposed] in Hstep, Hwf |- *.
  - destruct (take_first iso q) as [[t rest]|] eqn:Htake;
      [|discriminate Hstep].
    destruct (take_first_spec iso q t rest Htake) as (Howed & Hrank & Hsplit).
    destruct (Hsplit Hwf) as [Hwft Hwfrest].
    destruct (deliver_effect iso t
                {| trace := tr; tasks := rest; disposed := d |} Hwft)
      as (evs & new & Hrun & Hwfnew & Hcount & Hless).
    rewrite Hrun in Hstep. injection Hstep as <-.
    unfold pending, settled, extend. cbn [tasks trace snd].
    repeat split.
    + rewrite forallb_app. now rewrite Hwfrest, Hwfnew.
    + intro p. rewrite owed_in_app, settled_in_app, Howed.
      specialize (Hcount p). lia.
    + rewrite rank_in_app, Hrank. lia.
  - destruct (mem iso d); [discriminate Hstep|].
    injection Hstep as <-. unfold pending, settled. cbn [tasks trace]. auto.
Qed.

Lemma exec_invariant :
  forall cs w w',
    wf w ->
    exec cs w = Some w' ->
    wf w'
    /\ forall p, pending p w' + settled p w' = pending p w + settled p w.
Proof.
  induction cs as [|c cs IH]; intros w w' Hwf Hexec; cbn in Hexec.
  - injection Hexec as <-. auto.
  - destruct (step c w) as [w1|] eqn:Hstep; [|discriminate Hexec].
    destruct (step_invariant c w w1 Hwf Hstep) as (Hwf1 & Hkeep & _).
    destruct (IH w1 w' Hwf1 Hexec) as [Hwf' Hkeep'].
    split; [exact Hwf'|]. intro p. rewrite Hkeep'. apply Hkeep.
Qed.

(** Serving the inboxes in posting order empties them. *)
Lemma drain_empties :
  forall fuel w,
    wf w ->
    rank_in (tasks w) <= fuel ->
    exists w', exec (drain fuel w) w = Some w' /\ tasks w' = [].
Proof.
  induction fuel as [|fuel IH]; intros w Hwf Hfuel.
  - exists w. split; [reflexivity|].
    destruct (tasks w) as [|t q]; [reflexivity|].
    cbn in Hfuel. unfold rank in Hfuel. destruct (q_item t); lia.
  - cbn [drain]. destruct (tasks w) as [|t q] eqn:Hq.
    + exists w. split; [reflexivity|exact Hq].
    + assert (Hstep : exists w1, step (Deliver (q_target t)) w = Some w1).
      { cbn. rewrite Hq, take_first_head. eauto. }
      destruct Hstep as [w1 Hstep]. rewrite Hstep.
      assert (Hless : rank_in (tasks w1) < rank_in (tasks w)).
      { pose proof Hstep as Hs. cbn in Hs. rewrite Hq, take_first_head in Hs.
        unfold wf in Hwf. rewrite Hq in Hwf. cbn in Hwf.
        apply andb_prop in Hwf. destruct Hwf as [Hwft Hwfq].
        destruct (deliver_effect (q_target t) t
                    {| trace := trace w; tasks := q;
                       disposed := disposed w |} Hwft)
          as (evs & new & Hrun & _ & _ & Hlt).
        rewrite Hrun in Hs. injection Hs as <-.
        rewrite Hq. unfold extend. cbn [tasks snd rank_in].
        rewrite rank_in_app. lia. }
      rewrite Hq in Hless.
      destruct (step_invariant _ w w1 Hwf Hstep) as (Hwf1 & _ & _).
      destruct (IH w1 Hwf1 ltac:(lia)) as (w' & Hexec & Hempty).
      exists w'. split; [|exact Hempty].
      cbn [exec]. now rewrite Hstep.
Qed.

(** The world after the invocations: nothing settled, and every
    asynchronous invocation owed once per resolver of the list. *)
Lemma invoke_all_spec :
  forall invs w,
    wf w ->
    wf (invoke_all invs w)
    /\ trace (invoke_all invs w) = trace w
    /\ forall p,
         pending p (invoke_all invs w) =
         pending p w + count_occ Nat.eq_dec (resolvers invs) p.
Proof.
  induction invs as [|inv invs IH]; intros w Hwf.
  - cbn. repeat split; auto.
  - cbn [invoke_all].
    assert (Hwf1 : wf (snd (invoke inv w))).
    { unfold wf in *. destruct inv; cbn; rewrite forallb_app, Hwf;
        reflexivity. }
    destruct (IH _ Hwf1) as (Hwf' & Htrace & Hpending).
    repeat split; [exact Hwf'| |].
    + rewrite Htrace. destruct inv; reflexivity.
    + intro p. rewrite Hpending. unfold pending.
      destruct inv as [task i target|task target]; cbn;
        rewrite owed_in_app; cbn.
      * destruct (Nat.eq_dec (remote_resolver (remotes i)) p) as [->|Hne].
        -- rewrite Nat.eqb_refl. lia.
        -- apply Nat.eqb_neq in Hne. rewrite Hne. lia.
      * lia.
Qed.

(** The run flag: a runner that ran has its flag set and posted one
    follow-up item (success or failure), and its destructor then posts
    nothing; a runner destroyed without running posts the orphan item and
    nothing else. *)
Lemma run_flag_excludes_orphan :
  forall isolate task i w,
    (exists r' evs item,
       Phase2Runner_Run isolate (Phase2Runner_new task i) w =
         (Returns r', extend w evs [item])
       /\ did_run r' = true
       /\ is_follow_up (q_item item) = true
       /\ Phase2Runner_destroy r' (extend w evs [item]) =
            (Returns tt, extend w evs [item]))
    /\ (exists item,
          Phase2Runner_destroy (Phase2Runner_new task i) w =
            (Returns tt, extend w [] [item])
          /\ is_orphan (q_item item) = true).
Proof.
  intros isolate task i [tr q d]. split.
  - destruct (Phase2_outcome task) as [v|] eqn:E2.
    + exists {| self := None; info := None; did_run := true |}, [EvPhase2],
        {| q_target := GetIsolateHolder (remotes i);
           q_item := R_Phase3Failure task i (externalize v);
           q_urgent := false; q_run_even_if_disposed := true |}.
      repeat split. unfold_bridge. cbn. rewrite E2. same_world.
    + exists {| self := None; info := None; did_run := true |},
        [EvPhase2; EvTaskEpilogue isolate],
        {| q_target := GetIsolateHolder (remotes i);
           q_item := R_Phase3Success task i;
           q_urgent := false; q_run_even_if_disposed := true |}.
      repeat split. unfold_bridge. cbn. rewrite E2. same_world.
  - exists {| q_target := GetIsolateHolder (remotes i);
              q_item := R_Phase3Orphan task i;
              q_urgent := false; q_run_even_if_disposed := true |}.
    split; [|reflexivity]. unfold_bridge. same_world.
Qed.

(** C1: every future of an asynchronous invocation is settled exactly
    once.  After any run of the host (deliveries and disposals in any
    order) from the invocations, each such future is either settled once
    with nothing left in the inboxes that could settle it again, or not
    yet settled with exactly one item still owing it; once the inboxes
    are empty it has been settled once, and serving the inboxes always
    empties them.  The run flag keeps the follow-up item and the orphan
    fallback apart. *)
Theorem future_settled_exactly_once :
  forall invs cs w,
    NoDup (resolvers invs) ->
    exec cs (invoke_all invs empty_world) = Some w ->
    (forall p, In p (resolvers invs) ->
       pending p w + settled p w = 1
       /\ (tasks w = [] -> settled p w = 1))
    /\ (exists w',
          exec (drain (rank_in (tasks w)) w) w = Some w'
          /\ tasks w' = []
          /\ forall p, In p (resolvers invs) -> settled p w' = 1)
    /\ (forall isolate task i w0,
          (exists r' evs item,
             Phase2Runner_Run isolate (Phase2Runner_new task i) w0 =
               (Returns r', extend w0 evs [item])
             /\ did_run r' = true
             /\ is_follow_up (q_item item) = true
             /\ Phase2Runner_destroy r' (extend w0 evs [item]) =
                  (Returns tt, extend w0 evs [item]))
          /\ (exists item,
                Phase2Runner_destroy (Phase2Runner_new task i) w0 =
                  (Returns tt, extend w0 [] [item])
                /\ is_orphan (q_item item) = true)).
Proof.
  intros invs cs w Hdistinct Hexec.
  destruct (invoke_all_spec invs empty_world eq_refl)
    as (Hwf0 & Htrace0 & Hpending0).
  destruct (exec_invariant cs _ w Hwf0 Hexec) as [Hwf Hkeep].
  assert (Hone : forall p, In p (resolvers invs) ->
                   pending p w + settled p w = 1).
  { intros p Hin. rewrite Hkeep, Hpending0.
    unfold settled. rewrite Htrace0. cbn.
    apply (proj1 (NoDup_count_occ' Nat.eq_dec _) Hdistinct) in Hin. lia. }
  split; [|split].
  - intros p Hin. split; [now apply Hone|].
    intro Hempty. specialize (Hone p Hin).
    unfold pending in Hone. rewrite Hempty in Hone. exact Hone.
  - destruct (drain_empties (rank_in (tasks w)) w Hwf (le_n _))
      as (w' & Hdrain & Hempty).
    exists w'. split; [exact Hdrain|split; [exact Hempty|]].
    intros p Hin.
    destruct (exec_invariant _ w w' Hwf Hdrain) as [_ Hkeep'].
    specialize (Hkeep' p). specialize (Hone p Hin).
    unfold pending in Hkeep' at 1. rewrite Hempty in Hkeep'.
    cbn in Hkeep'. lia.
  - apply run_flag_excludes_orphan.
Qed.

(** *** Further properties of the synchronous mode *)

(** X1: the synchronous mode has no future and no queue entry: for every
    thread, task, target and world, [RunSync] leaves the inboxes as they
    were and settles no resolver. *)
Theorem RunSync_creates_no_future :
  forall th task target w,
    tasks (snd (RunSync th task target w)) = tasks w
    /\ forall p, settled p (snd (RunSync th task target w)) = settled p w.
Proof.
  intros th task target w. split.
  - exact (proj2 (RunSync_never_settles th task target w 0)).
  - intro p. exact (proj1 (RunSync_never_settles th task target w p)).
Qed.

(** X2: lock discipline of [RunSync].  On every path the call keeps the
    discipline read by [lock_discipline]: the lock on the target is
    released before the call ends, also when Phase2 throws; the epilogue
    hook runs only under that lock; the error is materialised, given its
    stack and rethrown, and Phase3 is run, only after the release. *)
Theorem RunSync_lock_discipline :
  forall th task target w,
    exists delta,
      trace (snd (RunSync th task target w)) = trace w ++ delta
      /\ lock_discipline None delta = true.
Proof.
  intros th task target w.
  destruct (mem target (disposed w)) eqn:Hgone.
  { rewrite (RunSync_disposed th task target w Hgone).
    exists []. cbn. now rewrite app_nil_r. }
  destruct (Nat.eqb target (GetCurrent th)) eqn:Hsame.
  { rewrite (RunSync_shortcut th task target w Hgone Hsame).
    rewrite Phase3_run. unfold extend.
    destruct (Phase2_outcome task).
    - exists [EvPhase2]. auto.
    - exists [EvPhase2; EvPhase3]. cbn [snd trace].
      now rewrite <- app_assoc. }
  destruct (IsDefaultThread th) eqn:Hdefault.
  2: { rewrite (RunSync_deadlock_before_lock th task target w
                  Hgone Hsame Hdefault).
       exists []. cbn. now rewrite app_nil_r. }
  rewrite (RunSync_locked_path th task target w Hgone Hsame Hdefault).
  cbv zeta. rewrite !Phase3_run.
  unfold extend, under_lock, epilogue_events.
  destruct (Phase2_outcome task) as [v|];
    [destruct (externalize v) as [e|];
       [destruct (IsObject (CopyInto e))|]
    |destruct (mem target (locked th))];
    cbn [snd trace]; rewrite <- ?app_assoc; cbn [app];
    (eexists; split; [reflexivity|]);
    cbn; rewrite ?Nat.eqb_refl; reflexivity.
Qed.

(** X3: the same-isolate shortcut.  When the target is the isolate the
    thread is inside, on any thread, default or not, Phase2 runs inline:
    no reentrancy query, no lock, no epilogue hook.  A value thrown by
    Phase2 leaves [RunSync] as it is, not externalized and with no stack
    chained; otherwise the call ends as Phase3 ends. *)
Theorem RunSync_same_isolate_inline :
  forall th task target w,
    mem target (disposed w) = false ->
    Nat.eqb target (GetCurrent th) = true ->
    RunSync th task target w =
      (match Phase2_outcome task, Phase3_outcome task with
       | Some v, _ => Throws (js_runtime_error v)
       | None, inl r => Returns r
       | None, inr v => Throws (js_runtime_error v)
       end,
       extend w
         (EvPhase2 ::
          match Phase2_outcome task with
          | Some _ => []
          | None => [EvPhase3]
          end) []).
Proof.
  intros th task target w Halive Hsame.
  rewrite (RunSync_shortcut th task target w Halive Hsame).
  destruct (Phase2_outcome task) as [v|]; [reflexivity|].
  rewrite Phase3_run. destruct w as [tr q d]. unfold extend. cbn.
  now rewrite <- !app_assoc, !app_nil_r.
Qed.

(** X4: with an error that can be externalized, a Phase2 failure under
    the lock is rethrown after the release and Phase3 is not run: the
    call throws the materialised error, with the stack of the call
    chained when it is an object, and the log from the release on holds
    the copy, the chaining and the throw only. *)
Theorem RunSync_rethrows_externalized :
  forall th v r3 target e w,
    mem target (disposed w) = false ->
    Nat.eqb target (GetCurrent th) = false ->
    IsDefaultThread th = true ->
    externalize v = Some e ->
    let task := {| Phase2_outcome := Some v; Phase3_outcome := r3 |} in
    let thrown := chained (CopyInto e) (CurrentStackTrace th) in
    let after_release :=
      EvCopyInto ::
      (if IsObject (CopyInto e)
       then [EvChainStack (CurrentStackTrace th)] else [])
      ++ [EvThrowException thrown] in
    RunSync th task target w =
      (Throws (js_runtime_error thrown),
       extend w
         ([EvIsLocked target; EvLock target; EvPhase2; EvUnlock target]
          ++ after_release) [])
    /\ ~ In EvPhase3 after_release.
Proof.
  intros th v r3 target e w Halive Hother Hdefault Hext task thrown after.
  split.
  - rewrite (RunSync_locked_path th task target w Halive Hother Hdefault).
    cbn. rewrite Hext. destruct w as [tr q d].
    unfold extend, under_lock, epilogue_events, after, thrown.
    destruct (CopyInto e); same_world.
  - unfold after. intros [H|H]; [discriminate H|].
    destruct (IsObject (CopyInto e)); cbn in H;
      repeat (destruct H as [H|H]; [discriminate H|]); exact H.
Qed.

(** X5: when Phase2 returns under the lock, the call ends as Phase3 ends:
    it returns the value Phase3 returns, or throws the value Phase3
    throws as it is, with no copy and no stack chained; Phase3 is the
    last thing run, after the release. *)
Theorem RunSync_returns_Phase3 :
  forall th r3 target w,
    mem target (disposed w) = false ->
    Nat.eqb target (GetCurrent th) = false ->
    IsDefaultThread th = true ->
    let task := {| Phase2_outcome := None; Phase3_outcome := r3 |} in
    RunSync th task target w =
      (match r3 with
       | inl r => Returns r
       | inr v => Throws (js_runtime_error v)
       end,
       extend w
         ([EvIsLocked target; EvLock target; EvPhase2]
          ++ (if mem target (locked th) then [] else [EvTaskEpilogue target])
          ++ [EvUnlock target; EvPhase3]) []).
Proof.
  intros th r3 target w Halive Hother Hdefault task.
  rewrite (RunSync_locked_path th task target w Halive Hother Hdefault).
  unfold task. cbv zeta. cbn [Phase2_outcome]. rewrite Phase3_run.
  destruct w as [tr q d].
  unfold extend, under_lock, epilogue_events. cbn.
  destruct (mem target (locked th)); same_world.
Qed.

(** *** Further properties of the asynchronous mode *)

(** X6: the asynchronous success path.  A runner delivered in its live
    target runs Phase2, then the epilogue hook of the target, and posts
    one item to the caller's isolate; that item runs Phase3, resolves the
    future with the value Phase3 returned, and drains the caller's
    microtasks.  No stack is touched and nothing is rejected. *)
Theorem async_success_resolves :
  forall target r i urgent flag w,
    mem target (disposed w) = false ->
    let task := {| Phase2_outcome := None; Phase3_outcome := inl r |} in
    let caller := GetIsolateHolder (remotes i) in
    let runner :=
      {| q_target := target;
         q_item := R_Phase2Runner (Phase2Runner_new task i);
         q_urgent := urgent; q_run_even_if_disposed := flag |} in
    let follow_up :=
      {| q_target := caller; q_item := R_Phase3Success task i;
         q_urgent := false; q_run_even_if_disposed := true |} in
    deliver target runner w =
      (Returns tt,
       extend w [EvPhase2; EvTaskEpilogue target] [follow_up])
    /\ forall w',
         deliver caller follow_up w' =
           (Returns tt,
            extend w'
              [EvPhase3; EvResolve (remote_resolver (remotes i)) r;
               EvRunMicrotasks caller] []).
Proof.
  intros target r i urgent flag [tr q d] Halive task caller runner follow_up.
  cbn in Halive. split.
  - unfold deliver, runner. cbn. rewrite Halive. cbn.
    unfold_bridge. same_world.
  - intros [tr' q' d']. unfold deliver, follow_up. cbn.
    rewrite orb_true_r. unfold_bridge. same_world.
Qed.

(** X7: each of the three items that come back to the caller (success,
    failure, orphan), when run, settles the resolver of its own callee
    info exactly once and no other, posts nothing, and drains the
    microtasks of the isolate that runs it right after the settlement. *)
Theorem follow_up_settles_then_drains :
  forall isolate item w,
    is_follow_up item || is_orphan item = true ->
    exists pre s p,
      run_item isolate item w =
        (Returns item, extend w (pre ++ [s; EvRunMicrotasks isolate]) [])
      /\ owes p item = 1
      /\ settles p s = true
      /\ (forall p', settles p' s = true -> p' = p)
      /\ (forall p', settled_in p' pre = 0).
Proof.
  intros isolate item [tr q d] Hkind.
  assert (Hsame : forall a b, Nat.eqb a b = true -> b = a).
  { intros a b H. apply Nat.eqb_eq in H. auto. }
  destruct item as [r | task | task i | task i error | task i];
    try discriminate Hkind.
  - exists [EvAttachStack (remote_stack_trace (remotes i))],
      (EvReject (remote_resolver (remotes i))
         (chained (Obj (Exception_Error "Isolate is disposed"))
                  (remote_stack_trace (remotes i)))),
      (remote_resolver (remotes i)).
    cbn [owes settles]. rewrite Nat.eqb_refl.
    repeat split; auto.
    unfold run_item. unfold_bridge. same_world.
  - set (rejection :=
           match error with
           | Some e => CopyInto e
           | None =>
               Obj (Exception_Error
                      "An exception was thrown. Sorry I don't know more.")
           end).
    exists ((match error with Some _ => [EvCopyInto] | None => [] end)
            ++ (if IsObject rejection
                then [EvChainStack (remote_stack_trace (remotes i))]
                else [])),
      (EvReject (remote_resolver (remotes i))
         (chained rejection (remote_stack_trace (remotes i)))),
      (remote_resolver (remotes i)).
    cbn [owes settles]. rewrite Nat.eqb_refl.
    repeat split; auto.
    + unfold run_item. unfold_bridge. cbn. subst rejection.
      destruct error as [e|]; cbn; [destruct (CopyInto e)|]; same_world.
    + intro p'. destruct error; destruct (IsObject rejection); reflexivity.
  - exists (EvPhase3 ::
            match Phase3_outcome task with
            | inr (Obj _) => [EvAttachStack (remote_stack_trace (remotes i))]
            | _ => []
            end),
      (match Phase3_outcome task with
       | inl r => EvResolve (remote_resolver (remotes i)) r
       | inr v =>
           EvReject (remote_resolver (remotes i))
             (attached v (remote_stack_trace (remotes i)))
       end),
      (remote_resolver (remotes i)).
    cbn [owes]. rewrite Nat.eqb_refl.
    repeat split.
    + unfold run_item. unfold_bridge. cbn.
      destruct (Phase3_outcome task) as [r|[x|o]]; same_world.
    + destruct (Phase3_outcome task); cbn; apply Nat.eqb_refl.
    + intros p' H. destruct (Phase3_outcome task); cbn in H; auto.
    + intro p'. destruct (Phase3_outcome task) as [r|[x|o]]; reflexivity.
Qed.

(** X8: no future is settled but those of the asynchronous invocations:
    in every run of the host from the invocations, a resolver that no
    asynchronous invocation carries is never resolved nor rejected.  A
    fire-and-ignore invocation carries none. *)
Theorem only_invoked_futures_settled :
  forall invs cs w p,
    exec cs (invoke_all invs empty_world) = Some w ->
    ~ In p (resolvers invs) ->
    settled p w = 0.
Proof.
  intros invs cs w p Hexec Hfresh.
  destruct (invoke_all_spec invs empty_world eq_refl)
    as (Hwf0 & Htrace0 & Hpending0).
  destruct (exec_invariant cs _ w Hwf0 Hexec) as [_ Hkeep].
  specialize (Hkeep p). rewrite Hpending0 in Hkeep.
  unfold settled in Hkeep at 2. rewrite Htrace0 in Hkeep.
  rewrite (count_occ_not_In Nat.eq_dec) in Hfresh.
  rewrite Hfresh in Hkeep. cbn in Hkeep. lia.
Qed.

(** What delivering an entry logs and posts does not depend on what the
    log and the inboxes already hold. *)
Lemma deliver_frame :
  forall iso t tr q d,
    wf_task t = true ->
    deliver iso t {| trace := tr; tasks := q; disposed := d |} =
      (Returns tt,
       extend {| trace := tr; tasks := q; disposed := d |}
         (trace (snd (deliver iso t (blank d))))
         (tasks (snd (deliver iso t (blank d))))).
Proof.
  intros iso [tgt item u flag] tr q d Hwf.
  unfold wf_task in Hwf. cbn [q_item q_run_even_if_disposed] in Hwf.
  unfold deliver, blank. cbn [q_item q_run_even_if_disposed disposed].
  destruct item as [[[task|] [i|] ran] | task | task i | task i error
                    | task i]; try discriminate Hwf.
  - destruct ran; [discriminate Hwf|].
    destruct (negb (mem iso d) || flag);
      unfold run_item, destroy_item; unfold_bridge; cbn;
      [destruct (Phase2_outcome task)|]; same_world.
  - destruct (negb (mem iso d) || flag);
      unfold run_item, destroy_item; unfold_bridge; cbn;
      [destruct (Phase2_outcome task)|]; same_world.
  - rewrite Hwf, orb_true_r.
    unfold run_item, destroy_item. unfold_bridge. same_world.
  - rewrite Hwf, orb_true_r.
    unfold run_item, destroy_item. unfold_bridge. cbn.
    destruct error as [e|]; cbn; [destruct (CopyInto e)|]; same_world.
  - rewrite Hwf, orb_true_r.
    unfold run_item, destroy_item. unfold_bridge. cbn.
    destruct (Phase3_outcome task) as [r|[x|o]]; same_world.
Qed.

(** Delivering an entry runs Phase2 only if the entry awaited it, and
    runs Phase3 only if the entry awaited it; an entry that awaits Phase3
    is posted only by a run of Phase2. *)
Lemma deliver_phase_counts :
  forall iso t d,
    wf_task t = true ->
    let w' := snd (deliver iso t (blank d)) in
    count_in is_Phase2 (trace w') + sum_over awaits_Phase2 (tasks w')
      <= awaits_Phase2 t
    /\ count_in is_Phase3 (trace w') + sum_over awaits_Phase3 (tasks w')
       <= awaits_Phase3 t + count_in is_Phase2 (trace w')
    /\ forallb wf_task (tasks w') = true.
Proof.
  intros iso [tgt item u flag] d Hwf.
  unfold wf_task in Hwf. cbn [q_item q_run_even_if_disposed] in Hwf.
  unfold deliver, blank, awaits_Phase2, awaits_Phase3.
  cbn [q_item q_run_even_if_disposed disposed].
  destruct item as [[[task|] [i|] ran] | task | task i | task i error
                    | task i]; try discriminate Hwf.
  - destruct ran; [discriminate Hwf|].
    destruct (negb (mem iso d) || flag);
      unfold run_item, destroy_item; unfold_bridge; cbn;
      [destruct (Phase2_outcome task)|]; cbn; repeat split; lia.
  - destruct (negb (mem iso d) || flag);
      unfold run_item, destroy_item; unfold_bridge; cbn;
      [destruct (Phase2_outcome task)|]; cbn; repeat split; lia.
  - rewrite Hwf, orb_true_r.
    unfold run_item, destroy_item. unfold_bridge. cbn. repeat split; lia.
  - rewrite Hwf, orb_true_r.
    unfold run_item, destroy_item. unfold_bridge. cbn.
    destruct error as [e|]; cbn; [destruct (CopyInto e)|]; cbn;
      repeat split; lia.
  - rewrite Hwf, orb_true_r.
    unfold run_item, destroy_item. unfold_bridge. cbn.
    destruct (Phase3_outcome task) as [r|[x|o]]; cbn; repeat split; lia.
Qed.

Lemma take_first_sum :
  forall f iso q t rest,
    take_first iso q = Some (t, rest) ->
    sum_over f q = f t + sum_over f rest.
Proof.
  intros f iso q. induction q as [|x q IH]; intros t rest Htake;
    cbn in Htake.
  - discriminate Htake.
  - destruct (Nat.eqb (q_target x) iso).
    + injection Htake as <- <-. reflexivity.
    + destruct (take_first iso q) as [[y rest']|]; [|discriminate Htake].
      injection Htake as <- <-. cbn. rewrite (IH y rest' eq_refl). lia.
Qed.

Lemma sum_over_app : forall f a b,
  sum_over f (a ++ b) = sum_over f a + sum_over f b.
Proof.
  intros f a b. induction a as [|t a IH]; cbn; [reflexivity|].
  rewrite IH. lia.
Qed.

Lemma count_in_app : forall f a b,
  count_in f (a ++ b) = count_in f a + count_in f b.
Proof.
  intros f a b. unfold count_in. now rewrite filter_app, length_app.
Qed.

(** One step of the host keeps the order of the phases: Phase2 runs are
    bounded by the entries that awaited it, Phase3 runs by the Phase2
    runs. *)
Lemma step_phase_invariant :
  forall n c w w',
    wf w ->
    phase2_runs w + sum_over awaits_Phase2 (tasks w) <= n ->
    phase3_runs w + sum_over awaits_Phase3 (tasks w) <= phase2_runs w ->
    step c w = Some w' ->
    phase2_runs w' + sum_over awaits_Phase2 (tasks w') <= n
    /\ phase3_runs w' + sum_over awaits_Phase3 (tasks w') <= phase2_runs w'.
Proof.
  intros n [iso|iso] [tr q d] w' Hwf H2 H3 Hstep; unfold wf in Hwf;
    unfold step in Hstep; unfold phase2_runs, phase3_runs in *;
    cbn [tasks trace disposed] in *.
  - destruct (take_first iso q) as [[t rest]|] eqn:Htake;
      [|discriminate Hstep].
    destruct (take_first_spec iso q t rest Htake) as (_ & _ & Hsplit).
    destruct (Hsplit Hwf) as [Hwft _].
    rewrite (take_first_sum awaits_Phase2 iso q t rest Htake) in H2.
    rewrite (take_first_sum awaits_Phase3 iso q t rest Htake) in H3.
    rewrite (deliver_frame iso t tr rest d Hwft) in Hstep.
    injection Hstep as <-.
    destruct (deliver_phase_counts iso t d Hwft) as (Hc2 & Hc3 & _).
    cbv zeta in Hc2, Hc3. unfold extend. cbn [tasks trace snd].
    rewrite !count_in_app, !sum_over_app. lia.
  - destruct (mem iso d); [discriminate Hstep|].
    injection Hstep as <-. cbn [tasks trace]. lia.
Qed.

Lemma exec_phase_invariant :
  forall n cs w w',
    wf w ->
    phase2_runs w + sum_over awaits_Phase2 (tasks w) <= n ->
    phase3_runs w + sum_over awaits_Phase3 (tasks w) <= phase2_runs w ->
    exec cs w = Some w' ->
    phase2_runs w' + sum_over awaits_Phase2 (tasks w') <= n
    /\ phase3_runs w' + sum_over awaits_Phase3 (tasks w') <= phase2_runs w'.
Proof.
  intros n cs. induction cs as [|c cs IH]; intros w w' Hwf H2 H3 Hexec;
    cbn in Hexec.
  - injection Hexec as <-. auto.
  - destruct (step c w) as [w1|] eqn:Hstep; [|discriminate Hexec].
    destruct (step_invariant c w w1 Hwf Hstep) as (Hwf1 & _ & _).
    destruct (step_phase_invariant n c w w1 Hwf H2 H3 Hstep) as [H2' H3'].
    exact (IH w1 w' Hwf1 H2' H3' Hexec).
Qed.

Lemma invoke_all_awaits :
  forall invs w,
    trace (invoke_all invs w) = trace w
    /\ sum_over awaits_Phase2 (tasks (invoke_all invs w)) =
       sum_over awaits_Phase2 (tasks w) + length invs
    /\ sum_over awaits_Phase3 (tasks (invoke_all invs w)) =
       sum_over awaits_Phase3 (tasks w).
Proof.
  induction invs as [|inv invs IH]; intro w.
  - cbn. repeat split; lia.
  - cbn [invoke_all length].
    destruct (IH (snd (invoke inv w))) as (Htrace & H2 & H3).
    rewrite Htrace, H2, H3.
    destruct inv; cbn; rewrite !sum_over_app; cbn; repeat split; lia.
Qed.

(** X9: the phases run in order, each run using up an entry that waited
    for it.  In every run of the host from the invocations, the runs of
    Phase2 together with the runners still queued never exceed the
    invocations, and the runs of Phase3 together with the success items
    still queued never exceed the runs of Phase2: Phase2 has run at most
    once per invocation, and Phase3 at most as often as Phase2. *)
Theorem phases_run_in_order :
  forall invs cs w,
    exec cs (invoke_all invs empty_world) = Some w ->
    phase2_runs w + sum_over awaits_Phase2 (tasks w) <= length invs
    /\ phase3_runs w + sum_over awaits_Phase3 (tasks w) <= phase2_runs w
    /\ phase3_runs w <= phase2_runs w
    /\ phase2_runs w <= length invs.
Proof.
  intros invs cs w Hexec.
  destruct (invoke_all_spec invs empty_world eq_refl) as (Hwf0 & _ & _).
  destruct (invoke_all_awaits invs empty_world) as (Htrace & H2 & H3).
  destruct (exec_phase_invariant (length invs) cs _ w Hwf0) as [Hp2 Hp3];
    [| |exact Hexec|lia].
  - unfold phase2_runs. rewrite Htrace, H2. cbn. lia.
  - unfold phase3_runs, phase2_runs. rewrite Htrace, H3. cbn. lia.
Qed.

End Bridge.

(** ** Concrete runs

    The runs below use the sample marshaller: isolate 1 is the caller
    (it owns resolver 5, invocation stack 3), isolate 2 the target. *)

(** C1, witness: a failing target call and a fire-and-ignore call; the
    target runs the first, is disposed, drops the second; the caller
    then rejects the future, once. *)
Lemma future_settled_exactly_once_witness :
  NoDup (resolvers [Async task_boom sample_info 2; Ignored task_42 2])
  /\ exists w,
       exec Value sample_externalize sample_CopyInto
         [Deliver 2; Dispose 2; Deliver 2; Deliver 1]
         (invoke_all Value [Async task_boom sample_info 2; Ignored task_42 2]
                     (empty_world Value)) = Some w
       /\ tasks Value w = []
       /\ settled Value 5 w = 1.
Proof.
  assert (Hdistinct :
            NoDup (resolvers [Async task_boom sample_info 2;
                              Ignored task_42 2])).
  { cbn. constructor; [intros []|constructor]. }
  split; [exact Hdistinct|].
  eexists. split; [vm_compute; reflexivity|]. split; [reflexivity|].
  refine (proj2 (proj1 (future_settled_exactly_once Value sample_externalize
            sample_CopyInto
            [Async task_boom sample_info 2; Ignored task_42 2]
            [Deliver 2; Dispose 2; Deliver 2; Deliver 1] _ Hdistinct _)
            5 _) _).
  - vm_compute. reflexivity.
  - cbn. auto.
  - reflexivity.
Defined.

(** C2, witness: the target 2 is gone when its inbox is served. *)
Lemma orphan_fallback_rejects_disposed_witness :
  mem 2 [2] = true
  /\ deliver Value sample_externalize sample_CopyInto 2
       {| q_target := 2;
          q_item := R_Phase2Runner Value (Phase2Runner_new task_42 sample_info);
          q_urgent := false; q_run_even_if_disposed := false |}
       {| trace := []; tasks := []; disposed := [2] |} =
     (Returns tt,
      {| trace := [];
         tasks := [{| q_target := 1;
                      q_item := R_Phase3Orphan Value task_42 sample_info;
                      q_urgent := false; q_run_even_if_disposed := true |}];
         disposed := [2] |}).
Proof.
  split; [reflexivity|].
  exact (proj1 (orphan_fallback_rejects_disposed Value sample_externalize
                  sample_CopyInto task_42 sample_info 2 false
                  {| trace := []; tasks := []; disposed := [2] |}
                  eq_refl)).
Defined.

(** C5, counterexample: a worker thread that is inside isolate 1, holds
    no lock of isolate 2 and calls into the disposed isolate 2 gets the
    disposed error, not the deadlock error. *)
Lemma disposed_check_precedes_deadlock_check :
  mem 2 (locked worker_thread) = false
  /\ Nat.eqb 2 (GetCurrent worker_thread) = false
  /\ IsDefaultThread worker_thread = false
  /\ RunSync Value sample_externalize sample_CopyInto worker_thread
       task_42 2 {| trace := []; tasks := []; disposed := [2] |} =
     (Throws (js_generic_error "Isolated is disposed"),
      {| trace := []; tasks := []; disposed := [2] |})
  /\ js_generic_error "Isolated is disposed" <>
     js_generic_error deadlock_message.
Proof.
  split; [reflexivity|]. split; [reflexivity|]. split; [reflexivity|].
  split; [reflexivity|]. unfold deadlock_message. discriminate.
Qed.

(** C5, witness: the same call with isolate 2 alive. *)
Lemma RunSync_deadlock_before_lock_witness :
  mem 2 (disposed Value (empty_world Value)) = false
  /\ Nat.eqb 2 (GetCurrent worker_thread) = false
  /\ IsDefaultThread worker_thread = false
  /\ RunSync Value sample_externalize sample_CopyInto worker_thread
       task_42 2 (empty_world Value) =
     (Throws (js_generic_error deadlock_message), empty_world Value).
Proof.
  split; [reflexivity|]. split; [reflexivity|]. split; [reflexivity|].
  exact (RunSync_deadlock_before_lock Value sample_externalize
           sample_CopyInto worker_thread task_42 2 (empty_world Value)
           eq_refl eq_refl eq_refl).
Defined.

(** C7, counterexample: Phase3 throws an error whose chain holds the
    throw-site stack 7; the future is rejected with the chain set to the
    invocation stack 3 alone.  The throw site is gone: the rejection is
    not the thrown error with 3 appended. *)
Lemma phase3_throw_replaces_stack :
  Phase3Success_Run Value 1 task_phase3_boom sample_info (empty_world Value) =
    (Returns tt,
     {| trace := [EvPhase3; EvAttachStack 3;
                  EvReject 5 (Obj {| message := "boom"; stack := [3] |});
                  EvRunMicrotasks 1];
        tasks := []; disposed := [] |})
  /\ chained (Obj {| message := "boom"; stack := [7] |}) 3 =
     Obj {| message := "boom"; stack := [7; 3] |}
  /\ Obj {| message := "boom"; stack := [3] |} <>
     chained (Obj {| message := "boom"; stack := [7] |}) 3
  /\ ~ In 7 (stack_of (Obj {| message := "boom"; stack := [3] |})).
Proof.
  split; [reflexivity|]. split; [reflexivity|]. split.
  - cbn. discriminate.
  - cbn. intros [H|[]]. discriminate H.
Qed.

(** C7, witness: the error "boom" thrown by Phase2 with chain 7 arrives
    with the invocation stack appended, in both modes. *)
Lemma stack_chained_or_attached_witness :
  sample_CopyInto (Obj {| message := "boom"; stack := [7] |}) =
    Obj {| message := "boom"; stack := [7] |}
  /\ Phase3Failure_Run Value sample_CopyInto 1 sample_info
       (Some (Obj {| message := "boom"; stack := [7] |}))
       (empty_world Value) =
     (Returns tt,
      extend Value (empty_world Value)
        [EvCopyInto; EvChainStack 3;
         EvReject 5 (Obj {| message := "boom"; stack := [7] ++ [3] |});
         EvRunMicrotasks 1] [])
  /\ RunSync Value sample_externalize sample_CopyInto default_thread
       task_boom 2 (empty_world Value) =
     (Throws (js_runtime_error
                (Obj {| message := "boom"; stack := [7] ++ [9] |})),
      extend Value (empty_world Value)
        [EvIsLocked 2; EvLock 2; EvPhase2; EvUnlock 2; EvCopyInto;
         EvChainStack 9;
         EvThrowException
           (Obj {| message := "boom"; stack := [7] ++ [9] |})] []).
Proof.
  destruct (stack_chained_or_attached Value sample_externalize
              sample_CopyInto) as (_ & Hasync & Hsync & _).
  split; [reflexivity|]. split.
  - exact (Hasync 1 sample_info
             (Obj {| message := "boom"; stack := [7] |})
             {| message := "boom"; stack := [7] |}
             (empty_world Value) eq_refl).
  - exact (Hsync default_thread
             (Obj {| message := "boom"; stack := [7] |})
             (inl (Primitive "42")) 2
             (Obj {| message := "boom"; stack := [7] |})
             {| message := "boom"; stack := [7] |}
             (empty_world Value) eq_refl eq_refl eq_refl eq_refl eq_refl).
Defined.

(** C8, witness: the default thread, inside isolate 0, calls into the
    live isolate 2. *)
Lemma RunSync_epilogue_iff_not_reentrant_witness :
  mem 2 (disposed Value (empty_world Value)) = false
  /\ Nat.eqb 2 (GetCurrent default_thread) = false
  /\ IsDefaultThread default_thread = true
  /\ exists epi rest,
       trace Value
         (snd (RunSync Value sample_externalize sample_CopyInto
                 default_thread task_42 2 (empty_world Value))) =
         trace Value (empty_world Value)
         ++ [EvIsLocked 2; EvLock 2; EvPhase2] ++ epi
         ++ EvUnlock 2 :: rest
       /\ (epi = [EvTaskEpilogue 2] \/ epi = [])
       /\ (epi = [EvTaskEpilogue 2] <->
            Phase2_outcome task_42 = None
            /\ mem 2 (locked default_thread) = false)
       /\ forall iso, ~ In (EvTaskEpilogue iso) rest.
Proof.
  split; [reflexivity|]. split; [reflexivity|]. split; [reflexivity|].
  exact (RunSync_epilogue_iff_not_reentrant Value sample_externalize
           sample_CopyInto default_thread task_42 2 (empty_world Value)
           eq_refl eq_refl eq_refl).
Defined.

(** C10, witness: Phase2 throws the string "oops". *)
Lemma non_object_failure_delivered_raw_witness :
  sample_externalize (Primitive "oops") = Some (Primitive "oops")
  /\ sample_CopyInto (Primitive "oops") = Primitive "oops"
  /\ Phase3Failure_Run Value sample_CopyInto 1 sample_info
       (Some (Primitive "oops")) (empty_world Value) =
     (Returns tt,
      extend Value (empty_world Value)
        [EvCopyInto; EvReject 5 (Primitive "oops"); EvRunMicrotasks 1] [])
  /\ RunSync Value sample_externalize sample_CopyInto default_thread
       task_throws_string 2 (empty_world Value) =
     (Throws (js_runtime_error (Primitive "oops")),
      extend Value (empty_world Value)
        [EvIsLocked 2; EvLock 2; EvPhase2; EvUnlock 2; EvCopyInto;
         EvThrowException (Primitive "oops")] []).
Proof.
  destruct (non_object_failure_delivered_raw Value sample_externalize
              sample_CopyInto) as (Hasync & _ & Hsync).
  split; [reflexivity|]. split; [reflexivity|]. split.
  - exact (Hasync 1 sample_info (Primitive "oops") "oops"
             (empty_world Value) eq_refl).
  - exact (Hsync default_thread (Primitive "oops") (inl (Primitive "42")) 2
             (Primitive "oops") "oops" (empty_world Value)
             eq_refl eq_refl eq_refl eq_refl eq_refl).
Defined.

(** C3, the failing run: Phase2 throws a plain object, which cannot be
    externalized.  Under the lock the handler stashes nothing, so after
    the release [RunSync] sees no error, calls Phase3 and returns its
    result: the failure of Phase2 is lost.  The asynchronous runner, on
    the same task, rejects the future with the placeholder error. *)
Theorem RunSync_loses_unexternalized_failure :
  Phase2_outcome task_throws_plain_object =
    Some (Obj {| message := ""; stack := [] |})
  /\ sample_externalize (Obj {| message := ""; stack := [] |}) = None
  /\ RunSync Value sample_externalize sample_CopyInto default_thread
       task_throws_plain_object 2 (empty_world Value) =
     (Returns (Primitive "42"),
      {| trace := [EvIsLocked 2; EvLock 2; EvPhase2; EvUnlock 2; EvPhase3];
         tasks := []; disposed := [] |})
  /\ exec Value sample_externalize sample_CopyInto [Deliver 2; Deliver 1]
       (invoke_all Value [Async task_throws_plain_object sample_info 2]
                   (empty_world Value)) =
     Some {| trace :=
               [EvPhase2; EvChainStack 3;
                EvReject 5
                  (Obj {| message :=
                            "An exception was thrown. Sorry I don't know more.";
                          stack := [3] |});
                EvRunMicrotasks 1];
             tasks := []; disposed := [] |}.
Proof.
  split; [reflexivity|]. split; [reflexivity|].
  split; [reflexivity|]. vm_compute. reflexivity.
Qed.

(** C6, the two disposed messages: the synchronous path throws
    "Isolated is disposed", the orphan path rejects with
    "Isolate is disposed"; the two strings differ in their first word and
    agree on the rest. *)
Theorem disposed_messages_differ :
  RunSync Value sample_externalize sample_CopyInto default_thread task_42 2
    {| trace := []; tasks := []; disposed := [2] |} =
    (Throws (js_generic_error "Isolated is disposed"),
     {| trace := []; tasks := []; disposed := [2] |})
  /\ Phase3Orphan_Run Value 1 sample_info (empty_world Value) =
     (Returns tt,
      {| trace :=
           [EvAttachStack 3;
            EvReject 5
              (Obj {| message := "Isolate is disposed"; stack := [3] |});
            EvRunMicrotasks 1];
         tasks := []; disposed := [] |})
  /\ "Isolated is disposed" <> "Isolate is disposed"
  /\ "Isolated is disposed" = String.append "Isolated" " is disposed"
  /\ "Isolate is disposed" = String.append "Isolate" " is disposed".
Proof.
  split; [reflexivity|]. split; [reflexivity|].
  split; [discriminate|]. split; reflexivity.
Qed.

(** X3, witness: a worker thread inside isolate 1 calls into isolate 1
    with a task whose Phase2 throws. *)
Lemma RunSync_same_isolate_inline_witness :
  mem 1 (disposed Value (empty_world Value)) = false
  /\ Nat.eqb 1 (GetCurrent worker_thread) = true
  /\ RunSync Value sample_externalize sample_CopyInto worker_thread
       task_boom 1 (empty_world Value) =
     (Throws (js_runtime_error (Obj {| message := "boom"; stack := [7] |})),
      extend Value (empty_world Value) [EvPhase2] []).
Proof.
  split; [reflexivity|]. split; [reflexivity|].
  exact (RunSync_same_isolate_inline Value sample_externalize
           sample_CopyInto worker_thread task_boom 1 (empty_world Value)
           eq_refl eq_refl).
Defined.

(** X4, witness: Phase2 throws the error "boom" under the lock of
    isolate 2. *)
Lemma RunSync_rethrows_externalized_witness :
  mem 2 (disposed Value (empty_world Value)) = false
  /\ Nat.eqb 2 (GetCurrent default_thread) = false
  /\ IsDefaultThread default_thread = true
  /\ sample_externalize (Obj {| message := "boom"; stack := [7] |}) =
     Some (Obj {| message := "boom"; stack := [7] |})
  /\ RunSync Value sample_externalize sample_CopyInto default_thread
       task_boom 2 (empty_world Value) =
     (Throws (js_runtime_error
                (Obj {| message := "boom"; stack := [7; 9] |})),
      extend Value (empty_world Value)
        [EvIsLocked 2; EvLock 2; EvPhase2; EvUnlock 2; EvCopyInto;
         EvChainStack 9;
         EvThrowException (Obj {| message := "boom"; stack := [7; 9] |})]
        []).
Proof.
  split; [reflexivity|]. split; [reflexivity|]. split; [reflexivity|].
  split; [reflexivity|].
  exact (proj1 (RunSync_rethrows_externalized Value sample_externalize
                  sample_CopyInto default_thread
                  (Obj {| message := "boom"; stack := [7] |})
                  (inl (Primitive "42")) 2
                  (Obj {| message := "boom"; stack := [7] |})
                  (empty_world Value) eq_refl eq_refl eq_refl eq_refl)).
Defined.

(** X5, witness: Phase2 returns and Phase3 returns 42. *)
Lemma RunSync_returns_Phase3_witness :
  mem 2 (disposed Value (empty_world Value)) = false
  /\ Nat.eqb 2 (GetCurrent default_thread) = false
  /\ IsDefaultThread default_thread = true
  /\ RunSync Value sample_externalize sample_CopyInto default_thread
       task_42 2 (empty_world Value) =
     (Returns (Primitive "42"),
      extend Value (empty_world Value)
        [EvIsLocked 2; EvLock 2; EvPhase2; EvTaskEpilogue 2; EvUnlock 2;
         EvPhase3] []).
Proof.
  split; [reflexivity|]. split; [reflexivity|]. split; [reflexivity|].
  exact (RunSync_returns_Phase3 Value sample_externalize sample_CopyInto
           default_thread (inl (Primitive "42")) 2 (empty_world Value)
           eq_refl eq_refl eq_refl).
Defined.

(** X6, witness: the task that computes 42, delivered in the live
    isolate 2. *)
Lemma async_success_resolves_witness :
  mem 2 (disposed Value (empty_world Value)) = false
  /\ deliver Value sample_externalize sample_CopyInto 2
       {| q_target := 2;
          q_item := R_Phase2Runner Value (Phase2Runner_new task_42 sample_info);
          q_urgent := false; q_run_even_if_disposed := false |}
       (empty_world Value) =
     (Returns tt,
      extend Value (empty_world Value) [EvPhase2; EvTaskEpilogue 2]
        [{| q_target := 1; q_item := R_Phase3Success Value task_42 sample_info;
            q_urgent := false; q_run_even_if_disposed := true |}])
  /\ deliver Value sample_externalize sample_CopyInto 1
       {| q_target := 1; q_item := R_Phase3Success Value task_42 sample_info;
          q_urgent := false; q_run_even_if_disposed := true |}
       (empty_world Value) =
     (Returns tt,
      extend Value (empty_world Value)
        [EvPhase3; EvResolve 5 (Primitive "42"); EvRunMicrotasks 1] []).
Proof.
  split; [reflexivity|].
  destruct (async_success_resolves Value sample_externalize sample_CopyInto
              2 (Primitive "42") sample_info false false
              (empty_world Value) eq_refl) as [Hrun Hfollow].
  split; [exact Hrun|exact (Hfollow (empty_world Value))].
Defined.

(** X7, witness: the failure item carrying the error "boom". *)
Lemma follow_up_settles_then_drains_witness :
  is_follow_up Value
    (R_Phase3Failure Value task_boom sample_info
       (Some (Obj {| message := "boom"; stack := [7] |})))
  || is_orphan Value
       (R_Phase3Failure Value task_boom sample_info
          (Some (Obj {| message := "boom"; stack := [7] |}))) = true
  /\ exists pre s p,
       run_item Value sample_externalize sample_CopyInto 1
         (R_Phase3Failure Value task_boom sample_info
            (Some (Obj {| message := "boom"; stack := [7] |})))
         (empty_world Value) =
         (Returns
            (R_Phase3Failure Value task_boom sample_info
               (Some (Obj {| message := "boom"; stack := [7] |}))),
          extend Value (empty_world Value)
            (pre ++ [s; EvRunMicrotasks 1]) [])
       /\ owes Value p
            (R_Phase3Failure Value task_boom sample_info
               (Some (Obj {| message := "boom"; stack := [7] |}))) = 1
       /\ settles p s = true
       /\ (forall p', settles p' s = true -> p' = p)
       /\ (forall p', settled_in p' pre = 0).
Proof.
  split; [reflexivity|].
  exact (follow_up_settles_then_drains Value sample_externalize
           sample_CopyInto 1
           (R_Phase3Failure Value task_boom sample_info
              (Some (Obj {| message := "boom"; stack := [7] |})))
           (empty_world Value) eq_refl).
Defined.

(** X8, witness: after the run of the C1 witness, resolver 6, which no
    invocation carries, is not settled. *)
Lemma only_invoked_futures_settled_witness :
  exists w,
    exec Value sample_externalize sample_CopyInto
      [Deliver 2; Dispose 2; Deliver 2; Deliver 1]
      (invoke_all Value [Async task_boom sample_info 2; Ignored task_42 2]
                  (empty_world Value)) = Some w
    /\ (In 6 (resolvers [Async task_boom sample_info 2; Ignored task_42 2])
        -> False)
    /\ settled Value 6 w = 0.
Proof.
  assert (Hfresh :
            ~ In 6 (resolvers [Async task_boom sample_info 2;
                               Ignored task_42 2])).
  { cbn. intros [H|[]]. discriminate H. }
  eexists. split; [vm_compute; reflexivity|]. split; [exact Hfresh|].
  refine (only_invoked_futures_settled Value sample_externalize
            sample_CopyInto
            [Async task_boom sample_info 2; Ignored task_42 2]
            [Deliver 2; Dispose 2; Deliver 2; Deliver 1] _ 6 _ Hfresh).
  vm_compute. reflexivity.
Defined.

(** X9, witness: the same run; Phase2 ran once (the second invocation
    was dropped), Phase3 never. *)
Lemma phases_run_in_order_witness :
  exists w,
    exec Value sample_externalize sample_CopyInto
      [Deliver 2; Dispose 2; Deliver 2; Deliver 1]
      (invoke_all Value [Async task_boom sample_info 2; Ignored task_42 2]
                  (empty_world Value)) = Some w
    /\ phase3_runs Value w <= phase2_runs Value w
    /\ phase2_runs Value w <= 2.
Proof.
  eexists. split; [vm_compute; reflexivity|].
  refine (proj2 (proj2 (phases_run_in_order Value sample_externalize
            sample_CopyInto
            [Async task_boom sample_info 2; Ignored task_42 2]
            [Deliver 2; Dispose 2; Deliver 2; Deliver 1] _ _))).
  vm_compute. reflexivity.
Defined.
